(** * esroll: rolling Elasticsearch indices behind a write and a search alias

    A shallow embedding of [esroll.go] and the properties of its rotation
    engine: the trigger rule ([ShouldRoll], [HasRoom]), the alias
    transition built by [Roll], policy loading ([GetConfigs]) and the
    start-up path of [main].

    Conventions.  Go's [int] and [int64] are [Z]; [uint64] is [N] and the
    conversion [int64(x)] is written out with its wrap-around.  Go's [error]
    is [option string] ([None] is [nil]).  A [map[string]interface{}] that
    may be [nil] is an [option Document].  Calls on the Elasticsearch
    connection go through the [Conn] interface; every mutating call is
    recorded, in order, in the log that [Roll] returns. *)

From Stdlib Require Import ZArith List String Ascii Bool Lia DecimalString.
From Stdlib Require Import Permutation Sorted.
Import ListNotations.

Local Open Scope Z_scope.

(** ** Basic data *)

(** Go's [error]: [None] is [nil]. *)
Definition error := option string.

(** An opaque settings document ([map[string]interface{}]): its keys with the
    JSON text of their values.  The engine never looks inside. *)
Definition Document := list (string * string).

(** [type Index struct] *)
Record Index := mkIndex {
  Name : string;
  Status : string;
  PriSize : Z
}.

(** [type IndexConfig struct] *)
Record IndexConfig := mkIndexConfig {
  Id : string;
  Settings : option Document;
  SettingsOnRoll : option Document;
  TargetIndex : string;
  RollIncrement : Z;
  RollUnit : string;
  RollSize : string;
  IndexesToAliasForSearch : Z;
  SearchSuffix : string;
  DeleteOldIndexes : bool;
  CloseOldIndexes : bool;
  OptimizeOnRoll : bool;
  OptimizeMaxSegments : Z
}.

(** [type EsRollConfig struct] (the fields [main] branches on). *)
Record EsRollConfig := mkEsRollConfig {
  ElasticUrl : string;
  ElasticPemFile : string;
  Daemon : bool
}.

(** [var rollUnits = map[string]bool{...}]; a missing key reads as [false]. *)
Definition rollUnits : list (string * bool) :=
  [ ("bytes", true); ("minutes", true); ("hours", true);
    ("days", true); ("months", true); ("years", true) ]%string.

Fixpoint map_get (m : list (string * bool)) (k : string) : bool :=
  match m with
  | [] => false
  | (k', v) :: m' => if String.eqb k' k then v else map_get m' k
  end.

(** ** Instants

    A [time.Time] in UTC, by its civil fields. *)
Record Time := mkTime {
  Year : Z;
  Month : Z;
  Day : Z;
  Hour : Z;
  Minute : Z;
  Second : Z
}.

Definition isLeap (y : Z) : bool :=
  (Z.rem y 4 =? 0) && (negb (Z.rem y 100 =? 0) || (Z.rem y 400 =? 0)).

(** Days of the year before the first of month [m] in a common year. *)
Definition daysBefore (m : Z) : Z :=
  nth (Z.to_nat (m - 1)) [0; 31; 59; 90; 120; 151; 181; 212; 243; 273; 304; 334] 0.

(** [t.YearDay()]: 1 to 365, or 366 in a leap year. *)
Definition YearDay (t : Time) : Z :=
  daysBefore (Month t) + Day t
  + (if isLeap (Year t) && (3 <=? Month t) then 1 else 0).

(** Go's [appendInt]: a sign for negatives, then at least [width] digits. *)
Definition appendInt (x : Z) (width : nat) : string :=
  let digits := NilEmpty.string_of_uint (N.to_uint (Z.to_N (Z.abs x))) in
  let padded :=
    String.append
      (String.concat "" (repeat "0"%string (width - String.length digits)%nat))
      digits in
  String.append (if x <? 0 then "-"%string else ""%string) padded.

(** The chunks of [s] between the separator [sep]. *)
Fixpoint split_on (sep : ascii) (s : string) : list string :=
  match s with
  | EmptyString => [EmptyString]
  | String c s' =>
      if Ascii.eqb c sep then EmptyString :: split_on sep s'
      else match split_on sep s' with
           | [] => [String c EmptyString]
           | h :: tl => String c h :: tl
           end
  end.

(** One chunk of a reference-time layout. *)
Definition formatChunk (t : Time) (chunk : string) : string :=
  if String.eqb chunk "2006" then appendInt (Year t) 4
  else if String.eqb chunk "01" then appendInt (Month t) 2
  else if String.eqb chunk "02" then appendInt (Day t) 2
  else if String.eqb chunk "15" then appendInt (Hour t) 2
  else if String.eqb chunk "04" then appendInt (Minute t) 2
  else if String.eqb chunk "05" then appendInt (Second t) 2
  else chunk.

(** [t.Format(layout)] on the dash-separated layouts of [IndexSuffixFormat]. *)
Definition Format (t : Time) (layout : string) : string :=
  String.concat "-" (map (formatChunk t) (split_on "-"%char layout)).

(** ** External libraries

    [humanize.ParseBytes] ([uint64] result) and [json.Unmarshal] into an
    [IndexConfig] are library code; the engine is parametric in them. *)
Class Libs := {
  RawMessage : Type;
  json_Unmarshal : RawMessage -> string + IndexConfig;
  ParseBytes : string -> string + N
}.

(** [int64(x)] for [x : uint64]. *)
Definition int64 (x : N) : Z :=
  (Z.of_N x + 2 ^ 63) mod 2 ^ 64 - 2 ^ 63.

(** ** Policies *)

Definition with_TargetIndex (c : IndexConfig) (v : string) : IndexConfig :=
  mkIndexConfig (Id c) (Settings c) (SettingsOnRoll c) v (RollIncrement c)
    (RollUnit c) (RollSize c) (IndexesToAliasForSearch c) (SearchSuffix c)
    (DeleteOldIndexes c) (CloseOldIndexes c) (OptimizeOnRoll c)
    (OptimizeMaxSegments c).

Definition with_SearchSuffix (c : IndexConfig) (v : string) : IndexConfig :=
  mkIndexConfig (Id c) (Settings c) (SettingsOnRoll c) (TargetIndex c)
    (RollIncrement c) (RollUnit c) (RollSize c) (IndexesToAliasForSearch c) v
    (DeleteOldIndexes c) (CloseOldIndexes c) (OptimizeOnRoll c)
    (OptimizeMaxSegments c).

Definition with_IndexesToAliasForSearch (c : IndexConfig) (v : Z) : IndexConfig :=
  mkIndexConfig (Id c) (Settings c) (SettingsOnRoll c) (TargetIndex c)
    (RollIncrement c) (RollUnit c) (RollSize c) v (SearchSuffix c)
    (DeleteOldIndexes c) (CloseOldIndexes c) (OptimizeOnRoll c)
    (OptimizeMaxSegments c).

Definition with_Id (c : IndexConfig) (v : string) : IndexConfig :=
  mkIndexConfig v (Settings c) (SettingsOnRoll c) (TargetIndex c)
    (RollIncrement c) (RollUnit c) (RollSize c) (IndexesToAliasForSearch c)
    (SearchSuffix c) (DeleteOldIndexes c) (CloseOldIndexes c)
    (OptimizeOnRoll c) (OptimizeMaxSegments c).

(** [func (config *IndexConfig) SetDefaults()] *)
Definition SetDefaults (config : IndexConfig) : IndexConfig :=
  let config :=
    if String.eqb (TargetIndex config) "" then with_TargetIndex config (Id config)
    else config in
  let config :=
    if String.eqb (SearchSuffix config) "" then with_SearchSuffix config "search"
    else config in
  if IndexesToAliasForSearch config =? 0
  then with_IndexesToAliasForSearch config 2
  else config.

(** [func (config *IndexConfig) Validate() error] *)
Definition Validate `{Libs} (config : IndexConfig) : error :=
  if String.eqb (Id config) "" then
    Some "configuration id is missing"%string
  else if IndexesToAliasForSearch config <? 0 then
    Some "searchIndexes must be greater than or equal to 0"%string
  else if String.eqb (RollUnit config) "" then
    Some ("configuration id[" ++ Id config ++ "] is invalid. rollUnit is required.")%string
  else if Bool.eqb (map_get rollUnits (RollUnit config)) false then
    Some ("configuration id[" ++ Id config ++
          "] is invalid. rollUnit must be one of minutes, hours, days, months, or years.")%string
  else if OptimizeMaxSegments config <? 0 then
    Some "optimizeMaxSegments must be greater than or equal to 0"%string
  else if String.eqb (RollUnit config) "bytes" then
    if String.eqb (RollSize config) "" then
      Some "rollSize is required if the rollUnit is bytes"%string
    else
      match ParseBytes (RollSize config) with
      | inl err => Some err
      | inr maxBytes =>
          if (maxBytes =? 0)%N
          then Some "rollSize must be greater than 0 bytes"%string
          else None
      end
  else None.

(** [func (config *IndexConfig) IndexSuffixFormat() string] *)
Definition IndexSuffixFormat (config : IndexConfig) : string :=
  if String.eqb (RollUnit config) "bytes" then "2006-01-02-15-04-05"
  else if String.eqb (RollUnit config) "minutes" then "2006-01-02-15-04"
  else if String.eqb (RollUnit config) "hours" then "2006-01-02-15"
  else if String.eqb (RollUnit config) "days" then "2006-01-02"
  else if String.eqb (RollUnit config) "months" then "2006-01"
  else "2006".

(** [func (config *IndexConfig) NextIndex(t time.Time) string] *)
Definition NextIndex (config : IndexConfig) (t : Time) : string :=
  let suffix := Format t (IndexSuffixFormat config) in
  (TargetIndex config ++ "_" ++ suffix)%string.

(** [func (config *IndexConfig) RollsOnSize() bool] *)
Definition RollsOnSize (config : IndexConfig) : bool :=
  String.eqb (RollUnit config) "bytes".

(** [func (config *IndexConfig) ShouldRoll(t time.Time) bool]; Go's [%] is
    the truncated remainder [Z.rem]. *)
Definition ShouldRoll (config : IndexConfig) (t : Time) : bool :=
  let roll := false in
  if negb (RollsOnSize config) then
    if String.eqb (RollUnit config) "minutes" then
      let roll := Second t =? 0 in
      if negb (RollIncrement config =? 0)
      then roll && (Z.rem (Minute t) (RollIncrement config) =? 0)
      else roll
    else if String.eqb (RollUnit config) "hours" then
      let roll := (Second t =? 0) && (Minute t =? 0) in
      if negb (RollIncrement config =? 0)
      then roll && (Z.rem (Hour t) (RollIncrement config) =? 0)
      else roll
    else
      let roll := (Second t =? 0) && (Minute t =? 0) && (Hour t =? 0) in
      if negb (RollIncrement config =? 0) then
        if String.eqb (RollUnit config) "days" then
          roll && (Z.rem (YearDay t) (RollIncrement config) =? 0)
        else if String.eqb (RollUnit config) "months" then
          roll && (Z.rem (Month t) (RollIncrement config) =? 0)
        else if String.eqb (RollUnit config) "years" then
          roll && (Z.rem (Year t) (RollIncrement config) =? 0)
        else roll
      else roll
  else roll.

(** [func AddWork(t time.Time) bool] *)
Definition AddWork (t : Time) : bool := Second t =? 0.

(** ** The Elasticsearch connection

    What the engine asks of [*elastigo.Conn].  Reads are functions of the
    store; every mutating call is a [Request] handed to [Perform], which
    answers with an [error] and the store it leaves. *)

(** elastigo's [CatIndexInfo] (the columns the engine reads). *)
Record CatIndexInfo := mkCatIndexInfo {
  CatName : string;
  CatStatus : string;
  CatPriSize : Z
}.

(** One entry of an alias batch: [{ "<action>" : { "index" : ..., "alias" : ... } }]. *)
Record AliasAction := mkAliasAction {
  action : string;
  index : string;
  alias : string
}.

(** A search hit of [esroll/config]; [Source *json.RawMessage] is [nil]
    when the hit carries no [_source]. *)
Record Hit `{Libs} := mkHit {
  HitId : string;
  HitSource : option RawMessage
}.

Record SearchResult `{Libs} := mkSearchResult {
  Total : Z;
  Hits : list Hit
}.

Arguments mkHit {_} _ _.
Arguments mkSearchResult {_} _ _.

(** The mutating calls of [Roll].  Index lists travel as one comma-joined
    expression ([strings.Join(names, ",")]); the alias batch travels as the
    body [aliasesBody] renders with [UpdateAliasAction] and
    [UpdateAliasActions]. *)
Inductive Request :=
| CreateIndexWithSettings (name : string) (settings : Document)
| UpdateAliases (actions : list AliasAction)
| DeleteIndex (names : list string)
| Flush (names : list string)
| CloseIndex (names : list string)
| PutSettings (names : list string) (settings : Document)
| OptimizeIndices (max_num_segments : option Z) (indices : list string).

Class Conn `{Libs} (St : Type) := {
  ExistsIndex : St -> string -> bool;
  GetCatIndexInfo : St -> string -> list CatIndexInfo;
  SearchConfigs : St -> string + SearchResult;
  Perform : Request -> St -> error * St
}.

Definition quote : string := String "034"%char EmptyString.

(** [func UpdateAliasAction(action string, index string, alias string) string] *)
Definition UpdateAliasAction (action index alias : string) : string :=
  String.concat ""
    [ "{ "; quote; action; quote; " : { "; quote; "index"; quote; " : ";
      quote; index; quote; ", "; quote; "alias"; quote; " : "; quote;
      alias; quote; " } }" ]%string.

(** [func UpdateAliasActions(actions []string) string] *)
Definition UpdateAliasActions (actions : list string) : string :=
  String.concat ""
    [ "{ "; quote; "actions"; quote; ": [ ";
      String.concat ", " actions; " ] }" ]%string.

(** The body [UpdateAliases] posts to [/_aliases] for a batch. *)
Definition aliasesBody (acts : list AliasAction) : string :=
  UpdateAliasActions
    (map (fun a => UpdateAliasAction (action a) (index a) (alias a)) acts).

(** *** Runs

    A run of store calls: the error it returns, the store it leaves and the
    requests it issued, in order.  A failed request ends the run. *)
Definition Exec (St : Type) := St -> error * St * list Request.

Definition skip {St} : Exec St := fun st => (None, st, []).

Definition call `{Conn} (r : Request) : Exec St :=
  fun st => let (err, st') := Perform r st in (err, st', [r]).

Definition andThen {St} (a b : Exec St) : Exec St :=
  fun st =>
    match a st with
    | (Some err, st', log) => (Some err, st', log)
    | (None, st', log) =>
        match b st' with
        | (err, st'', log') => (err, st'', log ++ log')
        end
    end.

Declare Scope exec_scope.
Delimit Scope exec_scope with exec.
Notation "a ;; b" := (andThen a b) (at level 61, right associativity) : exec_scope.

(** ** The rotation engine *)

(** What a call comes to: it returns, or it panics. *)
Inductive Outcome (A : Type) :=
| Return (a : A)
| Panic (reason : string).

Arguments Return {A} a.
Arguments Panic {A} reason.

(** The panic of [*p] at a [nil] pointer. *)
Definition nilDereference : string :=
  "runtime error: invalid memory address or nil pointer dereference".

Section Engine.
Context `{Conn}.

(** [func (config *IndexConfig) IndexSize(conn) (int64, error)] *)
Definition IndexSize (config : IndexConfig) (st : St) : Z * error :=
  let catIndexInfo := GetCatIndexInfo st (TargetIndex config) in
  let infoSize := Z.of_nat (List.length catIndexInfo) in
  if infoSize =? 0 then
    (0, Some "Unable to find index in size calculation"%string)
  else if 1 <? infoSize then
    (0, Some "Too many indices returned in size calculation"%string)
  else
    match catIndexInfo with
    | index :: _ => (CatPriSize index, None)
    | [] => (0, None)
    end.

(** [func (config *IndexConfig) HasRoom(conn) (bool, error)] *)
Definition HasRoom (config : IndexConfig) (st : St) : bool * error :=
  if negb (ExistsIndex st (TargetIndex config)) then (false, None)
  else
    match IndexSize config st with
    | (_, Some err) => (true, Some err)
    | (priSize, None) =>
        match ParseBytes (RollSize config) with
        | inl err => (true, Some err)
        | inr maxBytes => (priSize <? int64 maxBytes, None)
        end
    end.

(** [func (a ByIndexAge) Less(i, j int) bool] *)
Definition Less (a b : Index) : bool := String.ltb (Name a) (Name b).

(** [sort.Sort(ByIndexAge(indexes))], as an insertion sort on [Less]; index
    names are distinct, so every sort on [Less] gives the same list. *)
Fixpoint insertByAge (x : Index) (l : list Index) : list Index :=
  match l with
  | [] => [x]
  | y :: l' => if Less x y then x :: y :: l' else y :: insertByAge x l'
  end.

Definition sortByIndexAge (l : list Index) : list Index :=
  fold_right insertByAge [] l.

(** [func (config *IndexConfig) OldIndexNames(conn) []Index] *)
Definition OldIndexNames (config : IndexConfig) (st : St) : list Index :=
  let pattern := (TargetIndex config ++ "_*")%string in
  let catIndexInfo := GetCatIndexInfo st pattern in
  let indexes :=
    map (fun info => mkIndex (CatName info) (CatStatus info) 0) catIndexInfo in
  sortByIndexAge indexes.

(** The variables of the loop over [oldIndexes] in [Roll]. *)
Record Plan := mkPlan {
  cleanup : list string;
  actions : list AliasAction;
  optimizes : list string;
  searchIndexes : Z
}.

(** One iteration of [for i, oldIndex := range oldIndexes] with
    [len = len(oldIndexes)]. *)
Definition rollStep (config : IndexConfig) (len : Z) (i : Z)
    (oldIndex : Index) (p : Plan) : Plan :=
  let searchSuffix := ("_" ++ SearchSuffix config)%string in
  let actions :=
    actions p ++ [mkAliasAction "remove" (Name oldIndex) (TargetIndex config)] in
  let retire := searchIndexes p - 1 >=? IndexesToAliasForSearch config in
  if retire then
    let actions :=
      actions ++ [mkAliasAction "remove" (Name oldIndex)
                    (TargetIndex config ++ searchSuffix)%string] in
    let searchIndexes := searchIndexes p - 1 in
    if DeleteOldIndexes config then
      mkPlan (cleanup p ++ [Name oldIndex]) actions (optimizes p) searchIndexes
    else if CloseOldIndexes config && String.eqb (Status oldIndex) "open" then
      mkPlan (cleanup p ++ [Name oldIndex]) actions (optimizes p) searchIndexes
    else
      mkPlan (cleanup p) actions (optimizes p) searchIndexes
  else if OptimizeOnRoll config
          || (match SettingsOnRoll config with Some _ => true | None => false end) then
    if i =? len - 1 then
      mkPlan (cleanup p) actions (optimizes p ++ [Name oldIndex]) (searchIndexes p)
    else
      mkPlan (cleanup p) actions (optimizes p) (searchIndexes p)
  else
    mkPlan (cleanup p) actions (optimizes p) (searchIndexes p).

Fixpoint rollLoop (config : IndexConfig) (len : Z) (i : Z)
    (oldIndexes : list Index) (p : Plan) : Plan :=
  match oldIndexes with
  | [] => p
  | oldIndex :: rest =>
      rollLoop config len (i + 1) rest (rollStep config len i oldIndex p)
  end.

(** The alias batch, cleanup list and demotion list of [Roll]: the two
    [add] actions on [nextIndex], then the loop over [oldIndexes]. *)
Definition rollPlan (config : IndexConfig) (nextIndex : string)
    (oldIndexes : list Index) : Plan :=
  let searchSuffix := ("_" ++ SearchSuffix config)%string in
  let actions :=
    [ mkAliasAction "add" nextIndex (TargetIndex config);
      mkAliasAction "add" nextIndex (TargetIndex config ++ searchSuffix)%string ] in
  let searchIndexes := 1 + Z.of_nat (List.length oldIndexes) in
  rollLoop config (Z.of_nat (List.length oldIndexes)) 0 oldIndexes
    (mkPlan [] actions [] searchIndexes).

(** [if len(cleanup) > 0 { ... }] *)
Definition rollCleanup (config : IndexConfig) (cleanup : list string) : Exec St :=
  if 0 <? Z.of_nat (List.length cleanup) then
    if DeleteOldIndexes config then
      call (DeleteIndex cleanup)
    else if CloseOldIndexes config then
      (call (Flush cleanup) ;; call (CloseIndex cleanup))%exec
    else skip
  else skip.

(** [if len(optimizes) > 0 { ... }]; [PutSettings] marshals the document
    and issues [PUT /<names>/_settings]. *)
Definition rollOptimize (config : IndexConfig) (optimizes : list string) : Exec St :=
  if 0 <? Z.of_nat (List.length optimizes) then
    ((match SettingsOnRoll config with
      | Some settingsOnRoll => call (PutSettings optimizes settingsOnRoll)
      | None => skip
      end) ;;
     (if OptimizeOnRoll config then
        let args :=
          if negb (OptimizeMaxSegments config =? 0)
          then Some (OptimizeMaxSegments config) else None in
        call (OptimizeIndices args optimizes)
      else skip))%exec
  else skip.

(** [Roll] past its gate: from [settings := ...] to the final [return nil]. *)
Definition rollBody (config : IndexConfig) (nextIndex : string) : Exec St :=
  fun st =>
    let settings :=
      match Settings config with Some s => s | None => [] end in
    let oldIndexes := OldIndexNames config st in
    let plan := rollPlan config nextIndex oldIndexes in
    (call (CreateIndexWithSettings nextIndex settings) ;;
     call (UpdateAliases (actions plan)) ;;
     rollCleanup config (cleanup plan) ;;
     rollOptimize config (optimizes plan))%exec st.

(** [func (config *IndexConfig) Roll(conn, t time.Time) error] *)
Definition Roll (config : IndexConfig) (t : Time) : Exec St :=
  fun st =>
    let nextIndex := NextIndex config t in
    if RollsOnSize config then
      match HasRoom config st with
      | (_, Some err) => (Some err, st, [])
      | (true, None) => (None, st, [])
      | (false, None) => rollBody config nextIndex st
      end
    else if ExistsIndex st nextIndex then (None, st, [])
    else rollBody config nextIndex st.

(** *** Loading policies *)

(** The loop of [GetConfigs] over the hits: the policies kept so far, with
    the lines printed; an unmarshalling error ends the load, and
    [*hit.Source] panics at a hit without source. *)
Fixpoint loadHits (hits : list Hit) (configs : list IndexConfig)
    (out : list string)
    : Outcome (string + list IndexConfig) * list string :=
  match hits with
  | [] => (Return (inr configs), out)
  | hit :: rest =>
      match HitSource hit with
      | None => (Panic nilDereference, out)
      | Some source =>
          match json_Unmarshal source with
          | inl err => (Return (inl err), out)
          | inr configData =>
              let configData := with_Id configData (HitId hit) in
              let configData := SetDefaults configData in
              match Validate configData with
              | Some err => loadHits rest configs (out ++ [err])
              | None => loadHits rest (configs ++ [configData]) out
              end
          end
      end
  end.

(** [func GetConfigs(conn) (Configs, error)], with the lines it prints. *)
Definition GetConfigs (st : St)
    : Outcome (string + list IndexConfig) * list string :=
  match SearchConfigs st with
  | inl err => (Return (inl err), [])
  | inr res =>
      if Total res =? 0
      then (Return (inl "configuration documents not found"%string), [])
      else loadHits (Hits res) [] []
  end.

End Engine.

(** ** The scheduler: [main] *)

Definition newline : string := String "010"%char EmptyString.

Definition tab : string := String "009"%char EmptyString.

(** A line of [ExampleConfig]: [tabs] tabs, the text with ['] for the
    quotation mark, and a line feed. *)
Fixpoint unquote (s : string) : string :=
  match s with
  | EmptyString => EmptyString
  | String c s' =>
      String (if Ascii.eqb c "'"%char then "034"%char else c) (unquote s')
  end.

Definition line (tabs : nat) (text : string) : string :=
  (String.concat "" (repeat tab tabs) ++ unquote text ++ newline)%string.

(** [const ExampleConfig]: a raw string of 17 lines. *)
Definition ExampleConfig : string :=
  String.concat ""
    [ "curl -XPUT localhost:9200/esroll/config/snowball -d '{"; newline;
      line 1 "'targetIndex': 'snowball',";
      line 1 "'rollUnit': 'minutes',";
      line 1 "'rollIncrement': 3,";
      line 1 "'searchAliases': 4,";
      line 1 "'searchSuffix': 'search',";
      line 1 "'deleteOld': false,";
      line 1 "'closeOld': true,";
      line 1 "'optimizeOnRoll': true,";
      line 1 "'optimizeMaxSegments': 2,";
      line 1 "'settings': {";
      line 2 "'index': {";
      line 3 "'number_of_replicas': 5";
      line 2 "}";
      line 1 "}";
      "}'" ]%string.

Section Scheduler.
Context `{Conn}.

(** What a run of the process has done so far: the store, the lines
    printed and the requests issued. *)
Record World := mkWorld {
  store : St;
  printed : list string;
  issued : list Request
}.

(** [if err := conf.Roll(conn, t); err != nil { fmt.Println(err) }] *)
Definition rollAndReport (conf : IndexConfig) (t : Time) (w : World) : World :=
  match Roll conf t (store w) with
  | (err, st', log) =>
      mkWorld st'
        (printed w ++ match err with Some e => [e] | None => [] end)
        (issued w ++ log)
  end.

(** [for _, conf := range configs { if due { roll } }]; [now k] is the
    clock read in iteration [k]. *)
Fixpoint rollEach (due : IndexConfig -> Time -> bool) (now : nat -> Time)
    (k : nat) (configs : list IndexConfig) (w : World) : World :=
  match configs with
  | [] => w
  | conf :: rest =>
      let t := now k in
      rollEach due now (S k) rest
        (if due conf t then rollAndReport conf t w else w)
  end.

(** [ioutil.ReadFile]: the contents of the file at a path, or an error. *)
Definition FileSystem := string -> string + string.

(** [func (config *EsRollConfig) ConfigTransport() error]; the certificates
    it reads reach the transport of the connection only. *)
Definition ConfigTransport (readFile : FileSystem) (config : EsRollConfig)
    : error :=
  if negb (String.eqb (ElasticPemFile config) "") then
    match readFile (ElasticPemFile config) with
    | inr ca => None
    | inl err => Some err
    end
  else None.

(** The daemon's variables: the working set, the last load error, the
    sends waiting on [initQ], and the world. *)
Record DaemonState := mkDaemonState {
  configs : list IndexConfig;
  loadErr : error;
  initQ : list IndexConfig;
  world : World
}.

(** What the [select] of the daemon loop can receive; [Signal] is the
    signal goroutine.  A reload starts goroutines that read the loop
    variable [config] when they run: [readAt i] is the iteration in which
    the goroutine started in iteration [i] reads it. *)
Inductive Event :=
| WorkQ (t : Time)
| SizeTicker (now : nat -> Time)
| InitQ (k : nat) (now : Time)
| ConfigTicker (readAt : nat -> nat)
| Signal.

(** How a run of the process stands: it has exited with a code, it is in
    the daemon loop, or it has panicked. *)
Inductive MainResult :=
| Exited (code : Z) (w : World)
| Serving (d : DaemonState)
| Panicked (reason : string) (w : World).

(** [for _, config := range configs { ... go func() { initQ <- config }() }]:
    the sends the goroutines of a reload make, for the policies from
    iteration [i] on.  The goroutines share the one variable [config]: the
    goroutine of iteration [i] sends what the variable holds when it runs,
    the policy of its own iteration or of a later one, and that of the last
    iteration once the loop has ended. *)
Fixpoint initSends (st : St) (readAt : nat -> nat) (all : list IndexConfig)
    (i : nat) (rest : list IndexConfig) : list IndexConfig :=
  match rest with
  | [] => []
  | config :: rest' =>
      if negb (ExistsIndex st (TargetIndex config)) then
        nth (Nat.min (Nat.max i (readAt i)) (List.length all - 1)) all config
        :: initSends st readAt all (S i) rest'
      else initSends st readAt all (S i) rest'
  end.

(** One iteration of [for { select { ... } }]. *)
Definition daemonStep (ev : Event) (d : DaemonState) : MainResult :=
  match ev with
  | WorkQ t =>
      Serving (mkDaemonState (configs d) (loadErr d) (initQ d)
                 (rollEach ShouldRoll (fun _ => t) 0 (configs d) (world d)))
  | SizeTicker now =>
      Serving (mkDaemonState (configs d) (loadErr d) (initQ d)
                 (rollEach (fun conf _ => RollsOnSize conf) now 0 (configs d) (world d)))
  | InitQ k now =>
      match nth_error (initQ d) k with
      | Some conf =>
          Serving (mkDaemonState (configs d) (loadErr d)
                     (firstn k (initQ d) ++ skipn (S k) (initQ d))
                     (rollAndReport conf now (world d)))
      | None => Serving d
      end
  | ConfigTicker readAt =>
      match GetConfigs (store (world d)) with
      | (Return (inr cs), out) =>
          Serving (mkDaemonState cs None
                     (initQ d ++ initSends (store (world d)) readAt cs 0 cs)
                     (mkWorld (store (world d)) (printed (world d) ++ out)
                        (issued (world d))))
      | (Return (inl err), out) =>
          Serving (mkDaemonState [] (Some err) (initQ d)
                     (mkWorld (store (world d)) (printed (world d) ++ out ++ [err])
                        (issued (world d))))
      | (Panic reason, out) =>
          Panicked reason
            (mkWorld (store (world d)) (printed (world d) ++ out)
               (issued (world d)))
      end
  | Signal => Exited 0 (world d)
  end.

(** [func main()], from [ConfigTransport] on: a failed [ConfigTransport]
    panics with its error; one-shot mode runs to its exit code; daemon mode
    enters the loop. *)
Definition main (readFile : FileSystem) (mainConfig : EsRollConfig)
    (now : nat -> Time) (st : St) : MainResult :=
  match ConfigTransport readFile mainConfig with
  | Some err => Panicked err (mkWorld st [] [])
  | None =>
      match GetConfigs st with
      | (Panic reason, out) => Panicked reason (mkWorld st out [])
      | (Return loaded, out) =>
          let '(configs, err) :=
            match loaded with
            | inr cs => (cs, None)
            | inl e => ([], Some e)
            end in
          let out :=
            match err with
            | Some _ =>
                out ++
                [ if Daemon mainConfig
                  then "Configuration for esroll invalid or not found, waiting till one exists"
                  else "Configuration for esroll invalid or not found";
                  "You can create one with ..."; ExampleConfig ]%string
            | None => out
            end in
          match err, Daemon mainConfig with
          | Some _, false => Exited 1 (mkWorld st out [])
          | _, true => Serving (mkDaemonState configs err [] (mkWorld st out []))
          | None, false =>
              Exited 0 (rollEach (fun _ _ => true) now 0 configs (mkWorld st out []))
          end
      end
  end.

(** The exit status of the process: that of [os.Exit], or 2 after a panic
    that nothing recovers. *)
Definition exitCode (r : MainResult) : option Z :=
  match r with
  | Exited code _ => Some code
  | Serving _ => None
  | Panicked _ _ => Some 2
  end.

(** The daemon loop over a sequence of events, from a result of [main]. *)
Fixpoint runEvents (evs : list Event) (r : MainResult) : MainResult :=
  match evs, r with
  | ev :: rest, Serving d => runEvents rest (daemonStep ev d)
  | _, _ => r
  end.

Definition isSignal (ev : Event) : bool :=
  match ev with Signal => true | _ => false end.

Definition isReload (ev : Event) : bool :=
  match ev with ConfigTicker _ => true | _ => false end.

End Scheduler.

(** ** A model of the store

    The cluster behind [*elastigo.Conn] is not part of the repository; the
    properties of the alias topology are stated on this model of it:
    indices with their status, primary size and aliases, and the answer of
    the search on [esroll/config]. *)

Record EsIndex := mkEsIndex {
  ixName : string;
  ixStatus : string;
  ixPriSize : Z;
  ixAliases : list string
}.

Record EsStore `{Libs} := mkEsStore {
  esIndices : list EsIndex;
  esConfigs : string + SearchResult
}.

Arguments mkEsStore {_} _ _.

Definition memb (x : string) (l : list string) : bool := existsb (String.eqb x) l.

Definition hasName (ixs : list EsIndex) (name : string) : bool :=
  existsb (fun ix => String.eqb (ixName ix) name) ixs.

(** Whether the index [name] carries [alias]. *)
Definition holdsAlias (ixs : list EsIndex) (name alias : string) : bool :=
  existsb (fun ix => String.eqb (ixName ix) name && memb alias (ixAliases ix)) ixs.

Arguments memb : simpl never.
Arguments hasName : simpl never.
Arguments holdsAlias : simpl never.

Fixpoint stripStar (s : string) : option string :=
  match s with
  | EmptyString => None
  | String c EmptyString =>
      if Ascii.eqb c "*"%char then Some EmptyString else None
  | String c s' => option_map (String c) (stripStar s')
  end.

(** Modelled from the spec: name resolution of the Index Store
    ([Exists], [GetSize], [ListMatching]), which the repository does not
    contain.  A name resolves to the index of that name or to the indices
    carrying it as an alias; a pattern ending in [*] resolves to the
    indices whose name starts with the rest. *)
Definition resolves (pattern : string) (ix : EsIndex) : bool :=
  match stripStar pattern with
  | Some pre => String.prefix pre (ixName ix)
  | None => String.eqb (ixName ix) pattern || memb pattern (ixAliases ix)
  end.

Definition onIndex (name : string) (f : EsIndex -> EsIndex)
    (ixs : list EsIndex) : list EsIndex :=
  map (fun ix => if String.eqb (ixName ix) name then f ix else ix) ixs.

(** Modelled from the spec: one operation of [UpdateAliasesBatch] of the
    Index Store, which the repository does not contain.  An [add] puts the
    alias on the index; a [remove] takes it off, and does nothing when it
    is not there. *)
Definition applyAlias (a : AliasAction) (ixs : list EsIndex) : list EsIndex :=
  if String.eqb (action a) "add" then
    onIndex (index a)
      (fun ix =>
         if memb (alias a) (ixAliases ix) then ix
         else mkEsIndex (ixName ix) (ixStatus ix) (ixPriSize ix)
                (ixAliases ix ++ [alias a]))
      ixs
  else if String.eqb (action a) "remove" then
    onIndex (index a)
      (fun ix =>
         mkEsIndex (ixName ix) (ixStatus ix) (ixPriSize ix)
           (filter (fun al => negb (String.eqb al (alias a))) (ixAliases ix)))
      ixs
  else ixs.

Definition applyAliases (acts : list AliasAction) (ixs : list EsIndex)
    : list EsIndex :=
  fold_left (fun ixs a => applyAlias a ixs) acts ixs.

(** Modelled from the spec: the mutating operations of the Index Store
    ([Create], [UpdateAliasesBatch], [Delete], [Flush], [Close],
    [PutSettings], [Optimize]), which the repository does not contain.
    Creating an index whose name is taken fails; an alias batch is applied
    whole or, when it names a missing index, not at all; deleting removes
    the named indices with their aliases; closing changes the status only;
    flushing, settings and optimizing leave names, status and aliases
    alone. *)
Definition esPerform `{Libs} (r : Request) (st : EsStore) : error * EsStore :=
  match r with
  | CreateIndexWithSettings name _ =>
      if existsb (resolves name) (esIndices st) then
        (Some "index already exists"%string, st)
      else
        (None, mkEsStore (esIndices st ++ [mkEsIndex name "open" 0 []]) (esConfigs st))
  | UpdateAliases acts =>
      if forallb (fun a => hasName (esIndices st) (index a)) acts then
        (None, mkEsStore (applyAliases acts (esIndices st)) (esConfigs st))
      else (Some "index missing"%string, st)
  | DeleteIndex names =>
      (None, mkEsStore
               (filter (fun ix => negb (memb (ixName ix) names)) (esIndices st))
               (esConfigs st))
  | CloseIndex names =>
      (None, mkEsStore
               (map (fun ix =>
                       if memb (ixName ix) names
                       then mkEsIndex (ixName ix) "close" (ixPriSize ix) (ixAliases ix)
                       else ix) (esIndices st))
               (esConfigs st))
  | Flush _ | PutSettings _ _ | OptimizeIndices _ _ => (None, st)
  end.

(** Modelled from the spec: the Index Store as a [Conn], which the
    repository does not contain. *)
#[export] Instance EsConn `{Libs} : Conn EsStore := {
  ExistsIndex st name := existsb (resolves name) (esIndices st);
  GetCatIndexInfo st pattern :=
    map (fun ix => mkCatIndexInfo (ixName ix) (ixStatus ix) (ixPriSize ix))
      (filter (resolves pattern) (esIndices st));
  SearchConfigs st := esConfigs st;
  Perform := esPerform
}.

(** A [Libs] to run the engine on examples: a raw document is the policy it
    decodes to, or the decoding error; sizes are decimal numbers with an
    optional unit of [humanize.ParseBytes] ([B], [KB], [MB], [GB], [EB]). *)
Fixpoint digitsValue (s : string) (acc : N) : N * string :=
  match s with
  | String c s' =>
      let n := N_of_ascii c in
      if ((48 <=? n) && (n <=? 57))%N
      then digitsValue s' (10 * acc + (n - 48))%N
      else (acc, s)
  | EmptyString => (acc, EmptyString)
  end.

Definition sampleParseBytes (s : string) : string + N :=
  match s with
  | EmptyString => inl "invalid syntax"%string
  | String c _ =>
      let n := N_of_ascii c in
      if negb ((48 <=? n) && (n <=? 57))%N then inl "invalid syntax"%string
      else
        let (v, unit) := digitsValue s 0%N in
        let scaled (m : N) : string + N :=
          if (v * m <? 2 ^ 64)%N then inr (v * m)%N
          else inl ("too large: " ++ s)%string in
        if String.eqb unit "" || String.eqb unit "B" then scaled 1%N
        else if String.eqb unit "KB" then scaled (10 ^ 3)%N
        else if String.eqb unit "MB" then scaled (10 ^ 6)%N
        else if String.eqb unit "GB" then scaled (10 ^ 9)%N
        else if String.eqb unit "EB" then scaled (10 ^ 18)%N
        else inl ("unhandled size name: " ++ unit)%string
  end.

Definition SampleLibs : Libs := {|
  RawMessage := string + IndexConfig;
  json_Unmarshal := fun raw => raw;
  ParseBytes := sampleParseBytes
|}.

(** ** Notions the properties are stated with *)

Section LoadSpec.
Context `{Libs}.

(** The policy the source of a hit decodes to, with its id and the
    defaults applied; nothing for a hit without source. *)
Definition policyOf (hit : Hit) : option (string + IndexConfig) :=
  match HitSource hit with
  | None => None
  | Some source =>
      match json_Unmarshal source with
      | inl err => Some (inl err)
      | inr configData =>
          Some (inr (SetDefaults (with_Id configData (HitId hit))))
      end
  end.

Definition decodes (hit : Hit) : bool :=
  match policyOf hit with Some (inr _) => true | _ => false end.

Definition hasSource (hit : Hit) : bool :=
  match HitSource hit with Some _ => true | None => false end.

(** The policies of the hits that decode and validate, in order. *)
Definition validPolicies (hits : list Hit) : list IndexConfig :=
  flat_map (fun hit =>
              match policyOf hit with
              | Some (inr c) =>
                  match Validate c with None => [c] | Some _ => [] end
              | _ => []
              end) hits.

(** The validation errors of the hits that decode, in order. *)
Definition validationErrors (hits : list Hit) : list string :=
  flat_map (fun hit =>
              match policyOf hit with
              | Some (inr c) =>
                  match Validate c with None => [] | Some err => [err] end
              | _ => []
              end) hits.

(** What a load yields as its working set ([nil] on an error). *)
Definition loadedPolicies {St : Type} `{!Conn St} (st : St) : list IndexConfig :=
  match fst (GetConfigs st) with Return (inr cs) => cs | _ => [] end.

(** The reading of the load under which one bad document of any kind costs
    only that document: every stored document that decodes and validates
    is in the result. *)
Definition load_keeps_every_valid_policy {St : Type} `{!Conn St} (st : St) : Prop :=
  forall res hit c,
    SearchConfigs st = inr res -> Total res <> 0 ->
    In hit (Hits res) -> policyOf hit = Some (inr c) -> Validate c = None ->
    exists cs, fst (GetConfigs st) = Return (inr cs) /\ In c cs.

(** The reading of the exit code under which one-shot mode fails exactly
    when the load yields no valid policy. *)
Definition exit_code_tells_valid_policy {St : Type} `{!Conn St} (st : St) : Prop :=
  forall readFile now code,
    exitCode (main readFile (mkEsRollConfig "" "" false) now st) = Some code ->
    (code <> 0 <-> loadedPolicies st = []).

End LoadSpec.

(** *** The plan of a roll in closed form *)

(** The search alias of a policy: [config.TargetIndex + "_" + config.SearchSuffix]. *)
Definition searchAlias (config : IndexConfig) : string :=
  (TargetIndex config ++ "_" ++ SearchSuffix config)%string.

Definition creationSettings (config : IndexConfig) : Document :=
  match Settings config with Some s => s | None => [] end.

Definition rmWrite (config : IndexConfig) (o : Index) : AliasAction :=
  mkAliasAction "remove" (Name o) (TargetIndex config).

Definition rmSearch (config : IndexConfig) (o : Index) : AliasAction :=
  mkAliasAction "remove" (Name o) (searchAlias config).

(** How many of [n] old partitions a roll retires: the oldest
    [n - searchFanout + 1], when that is positive (all of them when the
    fan-out is not positive). *)
Definition retiredCount (config : IndexConfig) (n : nat) : nat :=
  Z.to_nat (Z.min (Z.of_nat n)
              (Z.max 0 (Z.of_nat n - IndexesToAliasForSearch config + 1))).

(** A retired partition is queued for cleanup when the policy deletes, or
    closes and the partition is open. *)
Definition cleanable (config : IndexConfig) (o : Index) : bool :=
  DeleteOldIndexes config
  || (CloseOldIndexes config && String.eqb (Status o) "open").

(** The policy asks for demotion processing. *)
Definition demotes (config : IndexConfig) : bool :=
  OptimizeOnRoll config
  || match SettingsOnRoll config with Some _ => true | None => false end.

(** The demotion list: the newest of the old partitions that are kept. *)
Definition demoted (config : IndexConfig) (kept : list Index) : list string :=
  if demotes config then
    match kept with
    | [] => []
    | o :: _ => [Name (last kept o)]
    end
  else [].

Definition planSpec (config : IndexConfig) (nextIndex : string)
    (oldIndexes : list Index) : list string * list AliasAction * list string :=
  let r := retiredCount config (List.length oldIndexes) in
  (map Name (filter (cleanable config) (firstn r oldIndexes)),
   [ mkAliasAction "add" nextIndex (TargetIndex config);
     mkAliasAction "add" nextIndex (searchAlias config) ]
   ++ flat_map (fun o => [rmWrite config o; rmSearch config o]) (firstn r oldIndexes)
   ++ map (rmWrite config) (skipn r oldIndexes),
   demoted config (skipn r oldIndexes)).

(** The requests of a roll that runs to its end, in order. *)
Definition cleanupRequests (config : IndexConfig) (names : list string)
    : list Request :=
  match names with
  | [] => []
  | _ :: _ =>
      if DeleteOldIndexes config then [DeleteIndex names]
      else if CloseOldIndexes config then [Flush names; CloseIndex names]
      else []
  end.

Definition demotionRequests (config : IndexConfig) (names : list string)
    : list Request :=
  match names with
  | [] => []
  | _ :: _ =>
      match SettingsOnRoll config with
      | Some d => [PutSettings names d]
      | None => []
      end
      ++ (if OptimizeOnRoll config then
            [OptimizeIndices
               (if OptimizeMaxSegments config =? 0 then None
                else Some (OptimizeMaxSegments config))
               names]
          else [])
  end.

Definition plannedRequests (config : IndexConfig) (nextIndex : string)
    (oldIndexes : list Index) : list Request :=
  match planSpec config nextIndex oldIndexes with
  | (cleanup, actions, optimizes) =>
      [ CreateIndexWithSettings nextIndex (creationSettings config);
        UpdateAliases actions ]
      ++ cleanupRequests config cleanup
      ++ demotionRequests config optimizes
  end.

Definition isDemotion (r : Request) : bool :=
  match r with
  | PutSettings _ _ | OptimizeIndices _ _ => true
  | _ => false
  end.

(** [l] is an initial segment of [l']. *)
Definition prefixOf {A} (l l' : list A) : Prop := exists rest, l' = l ++ rest.

Section GateSpec.
Context `{Conn}.

(** The gate of [Roll] lets the roll through. *)
Definition passesGate (config : IndexConfig) (t : Time) (st : St) : bool :=
  if RollsOnSize config then
    match HasRoom config st with
    | (false, None) => true
    | _ => false
    end
  else negb (ExistsIndex st (NextIndex config t)).

(** A run issues an initial segment of [reqs], and all of them when it
    returns no error. *)
Definition issues (x : Exec St) (reqs : list Request) : Prop :=
  forall st err st' log,
    x st = (err, st', log) ->
    prefixOf log reqs /\ (err = None -> log = reqs).

End GateSpec.

(** *** The handle topology of a family *)


(** What the cleanup of a roll does to the indices of the model store. *)
Definition cleanupEffect (config : IndexConfig) (names : list string)
    (ixs : list EsIndex) : list EsIndex :=
  match names with
  | [] => ixs
  | _ :: _ =>
      if DeleteOldIndexes config then
        filter (fun ix => negb (memb (ixName ix) names)) ixs
      else if CloseOldIndexes config then
        map (fun ix =>
               if memb (ixName ix) names
               then mkEsIndex (ixName ix) "close" (ixPriSize ix) (ixAliases ix)
               else ix) ixs
      else ixs
  end.

Section TopologySpec.
Context `{Libs}.





End TopologySpec.

(** ** Further notions *)

Definition with_RollIncrement (c : IndexConfig) (v : Z) : IndexConfig :=
  mkIndexConfig (Id c) (Settings c) (SettingsOnRoll c) (TargetIndex c) v
    (RollUnit c) (RollSize c) (IndexesToAliasForSearch c) (SearchSuffix c)
    (DeleteOldIndexes c) (CloseOldIndexes c) (OptimizeOnRoll c)
    (OptimizeMaxSegments c).

(** The keys of [rollUnits]. *)
Definition unitNames : list string :=
  [ "bytes"; "minutes"; "hours"; "days"; "months"; "years" ]%string.

(** A call returned an error; a call panicked. *)
Definition returnsError {A B} (r : Outcome (A + B)) : bool :=
  match r with Return (inl _) => true | _ => false end.

Definition panics {A} (r : Outcome A) : bool :=
  match r with Panic _ => true | Return _ => false end.

Definition isCleanup (r : Request) : bool :=
  match r with
  | DeleteIndex _ | Flush _ | CloseIndex _ => true
  | _ => false
  end.


(** *** Instants and the names of partitions *)

(** The fields of an instant are those of a date from year 0 to 9999 (two
    digits for all but the year). *)
Definition inRange (t : Time) : bool :=
  (0 <=? Year t) && (Year t <? 10000)
  && (0 <=? Month t) && (Month t <? 100)
  && (0 <=? Day t) && (Day t <? 100)
  && (0 <=? Hour t) && (Hour t <? 100)
  && (0 <=? Minute t) && (Minute t <? 100)
  && (0 <=? Second t) && (Second t <? 100).

(** The fields of an instant that the suffix of a policy's unit shows. *)
Definition stamp (config : IndexConfig) (t : Time) : list Z :=
  if String.eqb (RollUnit config) "bytes" then
    [Year t; Month t; Day t; Hour t; Minute t; Second t]
  else if String.eqb (RollUnit config) "minutes" then
    [Year t; Month t; Day t; Hour t; Minute t]
  else if String.eqb (RollUnit config) "hours" then
    [Year t; Month t; Day t; Hour t]
  else if String.eqb (RollUnit config) "days" then [Year t; Month t; Day t]
  else if String.eqb (RollUnit config) "months" then [Year t; Month t]
  else [Year t].

(** The lexicographic comparison of two lists of fields. *)
Fixpoint lexCompare (l1 l2 : list Z) : comparison :=
  match l1, l2 with
  | [], [] => Eq
  | [], _ :: _ => Lt
  | _ :: _, [] => Gt
  | x :: l1', y :: l2' =>
      match x ?= y with
      | Eq => lexCompare l1' l2'
      | c => c
      end
  end.

Definition digit (d : Z) : ascii := ascii_of_N (48 + Z.to_N d).

Definition twoDigits (x : Z) : string :=
  String (digit (x / 10)) (String (digit (x mod 10)) EmptyString).

Definition comparison_eqb (c c' : comparison) : bool :=
  match c, c' with
  | Eq, Eq | Lt, Lt | Gt, Gt => true
  | _, _ => false
  end.

(** The [n] integers from [start] on. *)
Fixpoint zrange (start : Z) (n : nat) : list Z :=
  match n with
  | O => []
  | S n' => start :: zrange (start + 1) n'
  end.

(** *** Runs of a list of requests *)

Section Runs.
Context `{Conn}.


End Runs.


(** ** Sample policies and stores *)

Section Samples.
#[local] Existing Instance SampleLibs.

(** The README's [logs] family: yearly partitions, a given fan-out. *)
Definition policyYears (fanout : Z) : IndexConfig :=
  mkIndexConfig "logs" None None "logs" 1 "years" "" fanout "search"
    false false true 2.

(** The same policy, closing the partitions it retires. *)
Definition policyYearsClosing : IndexConfig :=
  mkIndexConfig "logs" None None "logs" 1 "years" "" 2 "search"
    false true true 2.

(** The README's [snowball] policy: every third minute. *)
Definition policySnowball : IndexConfig :=
  mkIndexConfig "snowball" None None "snowball" 3 "minutes" "" 4 "search"
    false true true 2.

Definition threePastOne : Time := mkTime 2016 5 31 13 3 0.

Definition newYear (y : Z) : Time := mkTime y 1 1 0 0 0.

Definition midYear (y : Z) : Time := mkTime y 6 15 12 0 0.

Definition storeEmpty : EsStore := mkEsStore [] (inl "no such index"%string).

(** After the rolls of 2016 and 2017 with fan-out 2. *)
Definition storeFanout2 : EsStore :=
  mkEsStore
    [ mkEsIndex "logs_2016" "open" 0 ["logs_search"%string];
      mkEsIndex "logs_2017" "open" 0 ["logs"%string; "logs_search"%string] ]
    (inl "no such index"%string).

(** After the rolls of 2016 and 2017 with fan-out 1. *)
Definition storeFanout1 : EsStore :=
  mkEsStore
    [ mkEsIndex "logs_2016" "open" 0 [];
      mkEsIndex "logs_2017" "open" 0 ["logs"%string; "logs_search"%string] ]
    (inl "no such index"%string).

(** A size-based policy and a store whose one partition bears the name of
    the instant [sizeTick]. *)
Definition policyBytes (rollSize : string) : IndexConfig :=
  mkIndexConfig "snowball" None None "snowball" 0 "bytes" rollSize 2 "search"
    false false false 0.

Definition sizeTick : Time := mkTime 2016 6 3 17 36 53.

Definition storeSnowball (priSize : Z) : EsStore :=
  mkEsStore
    [ mkEsIndex "snowball_2016-06-03-17-36-53" "open" priSize
        ["snowball"%string; "snowball_search"%string] ]
    (inl "no such index"%string).

(** Policy documents: one that does not decode, one without [rollUnit],
    one with [searchAliases] 0 and one that is complete. *)
Definition docUndecodable : Hit :=
  mkHit "broken" (Some (inl "invalid character"%string)).

Definition docNoUnit : Hit :=
  mkHit "nounit"
    (Some (inr (mkIndexConfig "" None None "" 0 "" "" 0 "" false false false 0))).

Definition docZeroFanout : Hit :=
  mkHit "logs"
    (Some (inr (mkIndexConfig "" None None "" 1 "years" "" 0 "" false false
                  false 0))).

Definition docSnowball : Hit :=
  mkHit "snowball"
    (Some (inr (mkIndexConfig "" None None "snowball" 3 "minutes" "" 4 "search"
                  false true true 2))).

Definition storeDocs (hits : list Hit) : EsStore :=
  mkEsStore [] (inr (mkSearchResult (Z.of_nat (List.length hits)) hits)).

End Samples.

(** ** Further samples *)

Section FurtherSamples.
#[local] Existing Instance SampleLibs.

(** The [logs] policy, deleting the partitions it retires. *)
Definition policyYearsDeleting : IndexConfig :=
  mkIndexConfig "logs" None None "logs" 1 "years" "" 2 "search"
    true true true 2.

Definition metrics2017 : EsIndex :=
  mkEsIndex "metrics_2017" "open" 0 ["metrics"%string].

(** The [logs] family of [storeFanout2] next to an index of another one. *)
Definition storeMixed : EsStore :=
  mkEsStore
    [ mkEsIndex "logs_2016" "open" 0 ["logs_search"%string];
      mkEsIndex "logs_2017" "open" 0 ["logs"%string; "logs_search"%string];
      metrics2017 ]
    (inl "no such index"%string).

Definition sixPastOne : Time := mkTime 2016 5 31 13 6 0.

(** A hit without [_source]. *)
Definition docSourceless : Hit := mkHit "nosource" None.

(** A file system without files. *)
Definition noFiles : FileSystem :=
  fun _ => inl "no such file or directory"%string.

End FurtherSamples.

(** * Properties *)

(** ** The time trigger *)

Lemma rem_zero_iff_mod (a k : Z) : 0 < k -> (Z.rem a k =? 0) = (a mod k =? 0).
Proof.
  intros Hk.
  destruct (Z.eqb_spec (Z.rem a k) 0) as [Hr | Hr];
    destruct (Z.eqb_spec (a mod k) 0) as [Hm | Hm]; try reflexivity.
  - apply Z.rem_divide in Hr; [| lia]. apply Z.mod_divide in Hr; [| lia]. contradiction.
  - apply Z.mod_divide in Hm; [| lia]. apply Z.rem_divide in Hm; [| lia]. contradiction.
Qed.

(** C2.  A [bytes] policy never fires from the clock, whatever its
    [rollIncrement] (0, when it is not configured, included).  With a
    positive [rollIncrement] [k], [ShouldRoll] fires exactly on the
    boundary of its unit filtered by [k]: [minutes] at second 0 of a
    minute divisible by [k]; [hours] at minute 0, second 0 of an hour
    divisible by [k]; [days], [months] and [years] at midnight when the day
    of the year, the month or the year is divisible by [k]. *)
Theorem ShouldRoll_boundary (config : IndexConfig) (t : Time) :
  (RollUnit config = "bytes"%string -> ShouldRoll config t = false) /\
  (forall k : Z,
     RollIncrement config = k -> 0 < k ->
     (RollUnit config = "minutes"%string ->
        (ShouldRoll config t = true <-> Second t = 0 /\ Minute t mod k = 0)) /\
     (RollUnit config = "hours"%string ->
        (ShouldRoll config t = true <->
         Second t = 0 /\ Minute t = 0 /\ Hour t mod k = 0)) /\
     (RollUnit config = "days"%string ->
        (ShouldRoll config t = true <->
         Second t = 0 /\ Minute t = 0 /\ Hour t = 0 /\ YearDay t mod k = 0)) /\
     (RollUnit config = "months"%string ->
        (ShouldRoll config t = true <->
         Second t = 0 /\ Minute t = 0 /\ Hour t = 0 /\ Month t mod k = 0)) /\
     (RollUnit config = "years"%string ->
        (ShouldRoll config t = true <->
         Second t = 0 /\ Minute t = 0 /\ Hour t = 0 /\ Year t mod k = 0))).
Proof.
  split.
  - intros Hu. unfold ShouldRoll, RollsOnSize. now rewrite Hu.
  - intros k Hinc Hk.
    assert (Hnz : (RollIncrement config =? 0) = false) by (apply Z.eqb_neq; lia).
    unfold ShouldRoll, RollsOnSize. rewrite Hnz, Hinc. cbn [negb].
    repeat apply conj; intros Hu; rewrite Hu;
      cbn [String.eqb Ascii.eqb Bool.eqb negb];
      rewrite ?rem_zero_iff_mod by assumption;
      rewrite ?andb_true_iff, ?Z.eqb_eq; tauto.
Qed.

(** C2 on a [bytes] policy without [rollIncrement] at 17:37:00, and at
    [rollIncrement = 3], [rollUnit = minutes], 13:03:00. *)
Lemma ShouldRoll_boundary_witness :
  ShouldRoll (policyBytes "20KB") (mkTime 2016 6 3 17 37 0) = false
  /\ (ShouldRoll policySnowball threePastOne = true <->
      Second threePastOne = 0 /\ Minute threePastOne mod 3 = 0).
Proof.
  split.
  - exact (proj1 (ShouldRoll_boundary (policyBytes "20KB")
                    (mkTime 2016 6 3 17 37 0)) eq_refl).
  - exact (proj1 (proj2 (ShouldRoll_boundary policySnowball threePastOne)
                    3 eq_refl eq_refl) eq_refl).
Defined.

(** ** Loading policies *)

Section LoadProperties.
Context `{Conn}.

Lemma SetDefaults_fanout (c : IndexConfig) :
  IndexesToAliasForSearch (SetDefaults c) <> 0.
Proof.
  unfold SetDefaults.
  destruct (String.eqb (TargetIndex c) ""); cbn;
    destruct (String.eqb (SearchSuffix c) ""); cbn;
    destruct (Z.eqb_spec (IndexesToAliasForSearch c) 0); cbn; lia.
Qed.

Lemma Validate_fanout (c : IndexConfig) :
  Validate c = None -> 0 <= IndexesToAliasForSearch c.
Proof.
  unfold Validate. destruct (String.eqb (Id c) ""); [discriminate |].
  destruct (Z.ltb_spec (IndexesToAliasForSearch c) 0); [discriminate | lia].
Qed.

Lemma loadHits_decoded (hits : list Hit) :
  forallb decodes hits = true ->
  forall acc out,
    loadHits hits acc out =
    (Return (inr (acc ++ validPolicies hits)), out ++ validationErrors hits).
Proof.
  induction hits as [| hit rest IH]; intros Hdec acc out.
  - cbn. now rewrite !app_nil_r.
  - cbn in Hdec. apply andb_true_iff in Hdec as [Hhit Hrest].
    unfold decodes, policyOf in Hhit.
    cbn [loadHits validPolicies validationErrors flat_map].
    unfold policyOf.
    destruct (HitSource hit) as [source |]; [| discriminate].
    destruct (json_Unmarshal source) as [err | c]; [discriminate |].
    destruct (Validate (SetDefaults (with_Id c (HitId hit)))) as [err |].
    + rewrite (IH Hrest). cbn. now rewrite <- app_assoc.
    + rewrite (IH Hrest). cbn. now rewrite <- app_assoc.
Qed.

(** The load over hits that decode goes on with the rest of the hits. *)
Lemma loadHits_prefix (pre rest : list Hit) :
  forallb decodes pre = true ->
  forall acc out,
    loadHits (pre ++ rest) acc out
    = loadHits rest (acc ++ validPolicies pre) (out ++ validationErrors pre).
Proof.
  induction pre as [| hit pre IH]; intros Hdec acc out.
  - cbn. now rewrite !app_nil_r.
  - cbn in Hdec. apply andb_true_iff in Hdec as [Hhit Hpre].
    unfold decodes, policyOf in Hhit.
    cbn [loadHits validPolicies validationErrors flat_map app].
    unfold policyOf.
    destruct (HitSource hit) as [source |]; [| discriminate].
    destruct (json_Unmarshal source) as [e | c]; [discriminate |].
    destruct (Validate (SetDefaults (with_Id c (HitId hit)))) as [e |];
      rewrite (IH Hpre); cbn [app]; now rewrite <- ?app_assoc.
Qed.

Lemma loadHits_undecodable (pre : list Hit) (bad : Hit) (post : list Hit)
    (source : RawMessage) (err : string) :
  forallb decodes pre = true ->
  HitSource bad = Some source ->
  json_Unmarshal source = inl err ->
  forall acc out,
    loadHits (pre ++ bad :: post) acc out
    = (Return (inl err), out ++ validationErrors pre).
Proof.
  intros Hdec Hsrc Hbad acc out. rewrite (loadHits_prefix _ _ Hdec).
  cbn [loadHits]. now rewrite Hsrc, Hbad.
Qed.

Lemma loadHits_sourceless (pre : list Hit) (bad : Hit) (post : list Hit) :
  forallb decodes pre = true ->
  HitSource bad = None ->
  forall acc out,
    loadHits (pre ++ bad :: post) acc out
    = (Panic nilDereference, out ++ validationErrors pre).
Proof.
  intros Hdec Hsrc acc out. rewrite (loadHits_prefix _ _ Hdec).
  cbn [loadHits]. now rewrite Hsrc.
Qed.

Lemma loadHits_fanout (hits : list Hit) :
  forall acc out cs out',
    Forall (fun c => 1 <= IndexesToAliasForSearch c) acc ->
    loadHits hits acc out = (Return (inr cs), out') ->
    Forall (fun c => 1 <= IndexesToAliasForSearch c) cs.
Proof.
  induction hits as [| hit rest IH]; intros acc out cs out' Hacc Hload.
  - cbn in Hload. now inversion Hload; subst.
  - cbn in Hload.
    destruct (HitSource hit) as [source |]; [| discriminate].
    destruct (json_Unmarshal source) as [e | c]; [discriminate |].
    destruct (Validate (SetDefaults (with_Id c (HitId hit)))) as [e |] eqn:Hval.
    + eapply IH; eauto.
    + eapply IH; [| exact Hload].
      apply Forall_app. split; [assumption |].
      constructor; [| constructor].
      pose proof (Validate_fanout _ Hval).
      pose proof (SetDefaults_fanout (with_Id c (HitId hit))). lia.
Qed.

(** C7, as the code has it.  When the search answers with documents that
    all decode, the load yields exactly the policies that validate, in
    order, and prints the validation error of every other one; a document
    that does not decode ends the load with its error and no policy. *)
Theorem GetConfigs_drops_invalid (st : St) (res : SearchResult) :
  SearchConfigs st = inr res -> Total res <> 0 ->
  (forallb decodes (Hits res) = true ->
     GetConfigs st =
     (Return (inr (validPolicies (Hits res))), validationErrors (Hits res))) /\
  (forall pre bad post source err,
     Hits res = pre ++ bad :: post ->
     forallb decodes pre = true ->
     HitSource bad = Some source ->
     json_Unmarshal source = inl err ->
     GetConfigs st = (Return (inl err), validationErrors pre)).
Proof.
  intros Hsearch Htotal. unfold GetConfigs. rewrite Hsearch.
  destruct (Z.eqb_spec (Total res) 0) as [| _]; [contradiction |].
  split.
  - intros Hdec. now rewrite (loadHits_decoded _ Hdec).
  - intros pre bad post source err Hhits Hdec Hsrc Hbad.
    rewrite Hhits.
    now rewrite (loadHits_undecodable pre bad post source err Hdec Hsrc Hbad).
Qed.

Lemma GetConfigs_fanout_all (st : St) (cs : list IndexConfig) (out : list string) :
  GetConfigs st = (Return (inr cs), out) ->
  Forall (fun c => 1 <= IndexesToAliasForSearch c) cs.
Proof.
  unfold GetConfigs. intros Hload.
  destruct (SearchConfigs st) as [e | res]; [discriminate |].
  destruct (Total res =? 0); [discriminate |].
  exact (loadHits_fanout _ _ _ _ _ (Forall_nil _) Hload).
Qed.

(** C10.  Every policy a load accepts has a search fan-out of at least 1:
    [SetDefaults] runs before [Validate] and turns a fan-out of 0 into 2,
    and [Validate] rejects a negative one. *)
Theorem GetConfigs_fanout_positive (st : St) (cs : list IndexConfig)
    (out : list string) (config : IndexConfig) :
  GetConfigs st = (Return (inr cs), out) -> In config cs ->
  1 <= IndexesToAliasForSearch config.
Proof.
  intros Hload Hin.
  pose proof (GetConfigs_fanout_all _ _ _ Hload) as Hall.
  rewrite Forall_forall in Hall. now apply Hall.
Qed.

(** What the goroutines of a reload send are policies of the load. *)
Lemma initSends_In (st : St) (readAt : nat -> nat) (all : list IndexConfig)
    (rest : list IndexConfig) :
  forall i c,
    (forall c', In c' rest -> In c' all) ->
    In c (initSends st readAt all i rest) -> In c all.
Proof.
  induction rest as [| config rest IH]; intros i c Hsub Hin; [contradiction |].
  cbn [initSends] in Hin.
  assert (Hrest : forall c', In c' rest -> In c' all)
    by (intros c' Hc'; apply Hsub; now right).
  destruct (negb (ExistsIndex st (TargetIndex config))); [| now apply (IH (S i))].
  destruct Hin as [Hc | Hin]; [| now apply (IH (S i))].
  rewrite <- Hc.
  destruct (nth_in_or_default
              (Nat.min (Nat.max i (readAt i)) (List.length all - 1)) all config)
    as [Hnth | Hnth]; [exact Hnth |].
  rewrite Hnth. apply Hsub. now left.
Qed.

(** The same holds of the daemon's working set and of the policies waiting
    on [initQ], after any sequence of events. *)
Lemma working_set_fanout (evs : list Event) :
  forall (r : MainResult),
    match r with
    | Serving d =>
        Forall (fun c => 1 <= IndexesToAliasForSearch c) (configs d ++ initQ d)
    | _ => True
    end ->
    match runEvents evs r with
    | Serving d =>
        Forall (fun c => 1 <= IndexesToAliasForSearch c) (configs d ++ initQ d)
    | _ => True
    end.
Proof.
  induction evs as [| ev evs IH]; intros r Hr; [now destruct r |].
  destruct r as [code w | d | reason w]; [exact I | | exact I].
  cbn [runEvents]. apply IH.
  apply Forall_app in Hr as [Hcs Hq].
  destruct ev as [t | now | k now | readAt |]; cbn [daemonStep].
  - apply Forall_app. now split.
  - apply Forall_app. now split.
  - destruct (nth_error (initQ d) k); apply Forall_app; split; cbn; auto.
    apply Forall_app. split.
    + rewrite <- (firstn_skipn k (initQ d)) in Hq.
      now apply Forall_app in Hq as [Hq _].
    + rewrite <- (firstn_skipn (S k) (initQ d)) in Hq.
      now apply Forall_app in Hq as [_ Hq].
  - destruct (GetConfigs (store (world d))) as [[[e | cs] | reason] out] eqn:Hload.
    + apply Forall_app. split; cbn; [constructor | assumption].
    + pose proof (GetConfigs_fanout_all _ _ _ Hload) as Hall.
      apply Forall_app. split; cbn; [assumption |].
      apply Forall_app. split; [assumption |].
      rewrite Forall_forall in *. intros c Hc.
      apply Hall. now apply initSends_In in Hc.
    + exact I.
  - exact I.
Qed.

Lemma main_working_set_fanout (readFile : FileSystem) (mainConfig : EsRollConfig)
    (now : nat -> Time) (st : St) (evs : list Event) (d : DaemonState)
    (config : IndexConfig) :
  runEvents evs (main readFile mainConfig now st) = Serving d ->
  In config (configs d) -> 1 <= IndexesToAliasForSearch config.
Proof.
  intros Hrun Hin.
  pose proof (working_set_fanout evs (main readFile mainConfig now st)) as Hinv.
  rewrite Hrun in Hinv.
  assert (Hall : Forall (fun c => 1 <= IndexesToAliasForSearch c)
                   (configs d ++ initQ d)).
  { apply Hinv. unfold main.
    destruct (ConfigTransport readFile mainConfig); [exact I |].
    destruct (GetConfigs st) as [[[e | cs] | reason] out] eqn:Hload;
      destruct (Daemon mainConfig); try exact I; cbn; rewrite ?app_nil_r.
    - constructor.
    - exact (GetConfigs_fanout_all _ _ _ Hload). }
  rewrite Forall_forall in Hall. apply Hall. apply in_or_app. now left.
Qed.

(** [GetConfigs] panics at a hit without source only. *)
Lemma loadHits_panic (hits : list Hit) :
  forall acc out reason out',
    loadHits hits acc out = (Panic reason, out') ->
    reason = nilDereference /\ forallb hasSource hits = false.
Proof.
  induction hits as [| hit rest IH]; intros acc out reason out' Hload;
    [discriminate |].
  cbn [loadHits] in Hload. cbn [forallb]. unfold hasSource at 1.
  destruct (HitSource hit) as [source |].
  - cbn [andb]. destruct (json_Unmarshal source) as [e | c]; [discriminate |].
    destruct (Validate (SetDefaults (with_Id c (HitId hit))));
      exact (IH _ _ _ _ Hload).
  - split; [congruence | reflexivity].
Qed.

Lemma GetConfigs_panic (st : St) (reason : string) :
  fst (GetConfigs st) = Panic reason ->
  reason = nilDereference
  /\ exists res, SearchConfigs st = inr res
                 /\ forallb hasSource (Hits res) = false.
Proof.
  unfold GetConfigs. destruct (SearchConfigs st) as [e | res]; [discriminate |].
  destruct (Total res =? 0); [discriminate |].
  destruct (loadHits (Hits res) [] []) as [r out] eqn:Hload.
  cbn [fst]. intros ->.
  destruct (loadHits_panic _ _ _ _ _ Hload) as [Hreason Hsrc]. eauto.
Qed.

(** A step of the daemon loop leaves the loop on a signal, with code 0, or
    on a reload that panics, and on nothing else. *)
Lemma daemonStep_cases (ev : Event) (d : DaemonState) :
  match daemonStep ev d with
  | Serving _ => isSignal ev = false
  | Exited code w => code = 0 /\ isSignal ev = true
  | Panicked reason w =>
      isReload ev = true /\ fst (GetConfigs (store w)) = Panic reason
  end.
Proof.
  destruct ev as [t | now | k now | readAt |]; cbn [daemonStep isSignal isReload];
    try reflexivity.
  - now destruct (nth_error (initQ d) k).
  - destruct (GetConfigs (store (world d))) as [[[e | cs] | reason] out] eqn:Hload;
      try reflexivity.
    cbn [store]. now rewrite Hload.
  - now split.
Qed.

Lemma runEvents_cases (evs : list Event) :
  forall d,
    match runEvents evs (Serving d) with
    | Serving _ => existsb isSignal evs = false
    | Exited code w => code = 0 /\ existsb isSignal evs = true
    | Panicked reason w =>
        existsb isReload evs = true
        /\ fst (GetConfigs (store w)) = Panic reason
    end.
Proof.
  induction evs as [| ev evs IH]; intros d; [reflexivity |].
  cbn [runEvents existsb].
  pose proof (daemonStep_cases ev d) as Hstep.
  destruct (daemonStep ev d) as [code w | d' | reason w].
  - destruct Hstep as [-> ->]. now destruct evs.
  - rewrite Hstep. cbn [orb]. specialize (IH d').
    destruct (runEvents evs (Serving d')) as [code w | d'' | reason w];
      [exact IH | exact IH |].
    destruct IH as [-> Hpanic]. now rewrite orb_true_r.
  - destruct Hstep as [-> Hpanic]. now destruct evs.
Qed.

(** C8, as the code has it.  The process panics, which ends it with status
    2, when [ConfigTransport] fails or the first load meets a hit without
    source.  Otherwise one-shot mode exits with 1 exactly when the load
    returns an error and with 0 when it returns policies, be it none; and
    daemon mode enters its loop whatever the load returned, with the
    policies loaded and the error kept.  The loop is left on a signal, with
    status 0, or on a reload that panics at a hit without source, and in no
    other way: a load that returns an error never ends it.  A reload tick
    loads again and replaces the working set with the result. *)
Theorem main_exit_codes (readFile : FileSystem) (mainConfig : EsRollConfig)
    (now : nat -> Time) (st : St) :
  exitCode (main readFile mainConfig now st) =
    match ConfigTransport readFile mainConfig, fst (GetConfigs st) with
    | Some _, _ => Some 2
    | None, Panic _ => Some 2
    | None, Return loaded =>
        if Daemon mainConfig then None
        else Some (match loaded with inl _ => 1 | inr _ => 0 end)
    end /\
  (forall loaded,
     Daemon mainConfig = true ->
     ConfigTransport readFile mainConfig = None ->
     fst (GetConfigs st) = Return loaded ->
     exists d,
       main readFile mainConfig now st = Serving d
       /\ configs d = loadedPolicies st
       /\ loadErr d = match loaded with inl err => Some err | inr _ => None end
       /\ store (world d) = st) /\
  (forall evs d,
     match runEvents evs (Serving d) with
     | Serving _ => existsb isSignal evs = false
     | Exited code w => code = 0 /\ existsb isSignal evs = true
     | Panicked reason w =>
         existsb isReload evs = true
         /\ fst (GetConfigs (store w)) = Panic reason
         /\ reason = nilDereference
         /\ exists res, SearchConfigs (store w) = inr res
                        /\ forallb hasSource (Hits res) = false
     end) /\
  (forall d readAt,
     match fst (GetConfigs (store (world d))) with
     | Return loaded =>
         exists d',
           daemonStep (ConfigTicker readAt) d = Serving d'
           /\ configs d' = loadedPolicies (store (world d))
           /\ loadErr d' =
                match loaded with inl err => Some err | inr _ => None end
     | Panic reason =>
         exists w, daemonStep (ConfigTicker readAt) d = Panicked reason w
     end).
Proof.
  repeat apply conj.
  - unfold main. destruct (ConfigTransport readFile mainConfig); [reflexivity |].
    destruct (GetConfigs st) as [[[e | cs] | reason] out];
      destruct (Daemon mainConfig); reflexivity.
  - intros loaded Hd Htransport Hload. unfold main, loadedPolicies.
    rewrite Htransport, Hd.
    destruct (GetConfigs st) as [r out]. cbn [fst] in Hload. subst r.
    destruct loaded as [e | cs]; eexists; repeat split.
  - intros evs d. pose proof (runEvents_cases evs d) as Hrun.
    destruct (runEvents evs (Serving d)) as [code w | d' | reason w];
      [exact Hrun | exact Hrun |].
    destruct Hrun as [Hreload Hpanic].
    destruct (GetConfigs_panic _ _ Hpanic) as [Hreason Hres].
    repeat split; assumption.
  - intros d readAt. unfold daemonStep, loadedPolicies.
    destruct (GetConfigs (store (world d))) as [[[e | cs] | reason] out];
      cbn [fst]; eexists; repeat split.
Qed.

End LoadProperties.

(** ** The plan of a roll *)

Section PlanProperties.
Context `{Conn}.

Lemma plan_eta (p : Plan) :
  p = mkPlan (cleanup p) (actions p) (optimizes p) (searchIndexes p).
Proof. now destruct p. Qed.

Lemma demoted_nil (config : IndexConfig) : demoted config [] = [].
Proof. unfold demoted. now destruct (demotes config). Qed.

Lemma demoted_cons (config : IndexConfig) (o : Index) (rest : list Index) :
  demoted config (o :: rest) =
  match rest with
  | [] => if demotes config then [Name o] else []
  | _ :: _ => demoted config rest
  end.
Proof.
  unfold demoted. destruct (demotes config); [| now destruct rest].
  destruct rest as [| o' rest']; [reflexivity |].
  f_equal. f_equal. cbn [last].
  destruct rest' as [| o'' rest'']; [reflexivity |].
  clear. revert o o' o''. induction rest'' as [| x l IH]; intros; [reflexivity |].
  cbn [last] in *. apply (IH o o' x).
Qed.

(** Once the counter is below the fan-out no later partition is retired. *)
Lemma rollLoop_keep (config : IndexConfig) (len : Z) (rest : list Index) :
  forall (i : Z) (p : Plan),
    i + Z.of_nat (List.length rest) = len ->
    searchIndexes p - 1 < IndexesToAliasForSearch config ->
    rollLoop config len i rest p =
    mkPlan (cleanup p) (actions p ++ map (rmWrite config) rest)
      (optimizes p ++ demoted config rest) (searchIndexes p).
Proof.
  induction rest as [| o rest IH]; intros i p Hlen Hk.
  - cbn. rewrite demoted_nil, !app_nil_r. apply plan_eta.
  - cbn [rollLoop]. cbn [List.length] in Hlen.
    assert (Hret : (searchIndexes p - 1 >=? IndexesToAliasForSearch config) = false)
      by (rewrite Z.geb_leb; apply Z.leb_gt; lia).
    unfold rollStep. rewrite Hret. fold (demotes config).
    rewrite demoted_cons.
    destruct (demotes config) eqn:Hdem.
    + destruct (Z.eqb_spec i (len - 1)) as [Hi | Hi].
      * destruct rest as [| o' rest']; [| cbn [List.length] in Hlen; lia].
        reflexivity.
      * destruct rest as [| o' rest']; [cbn [List.length] in Hlen; lia |].
        rewrite IH by (cbn [List.length searchIndexes] in *; lia).
        cbn [cleanup actions optimizes searchIndexes map].
        now rewrite <- app_assoc.
    + rewrite IH by (cbn [List.length searchIndexes] in *; lia).
      cbn [cleanup actions optimizes searchIndexes map].
      rewrite <- app_assoc. cbn [app].
      destruct rest; [now rewrite demoted_nil | reflexivity].
Qed.

Lemma retiredCount_retire (config : IndexConfig) (m : nat) :
  IndexesToAliasForSearch config <= Z.of_nat (S m) ->
  retiredCount config (S m) = S (retiredCount config m).
Proof. unfold retiredCount. lia. Qed.

Lemma retiredCount_keep (config : IndexConfig) (m : nat) :
  Z.of_nat m < IndexesToAliasForSearch config ->
  retiredCount config m = 0%nat.
Proof. unfold retiredCount. lia. Qed.

(** While the counter is one more than the partitions still to visit, the
    loop retires the oldest [retiredCount] of them and keeps the rest. *)
Lemma rollLoop_closed (config : IndexConfig) (len : Z) (rest : list Index) :
  forall (i : Z) (p : Plan),
    i + Z.of_nat (List.length rest) = len ->
    searchIndexes p - 1 = Z.of_nat (List.length rest) ->
    let r := retiredCount config (List.length rest) in
    rollLoop config len i rest p =
    mkPlan
      (cleanup p ++ map Name (filter (cleanable config) (firstn r rest)))
      (actions p
       ++ flat_map (fun o => [rmWrite config o; rmSearch config o]) (firstn r rest)
       ++ map (rmWrite config) (skipn r rest))
      (optimizes p ++ demoted config (skipn r rest))
      (searchIndexes p - Z.of_nat r).
Proof.
  induction rest as [| o rest IH]; intros i p Hlen Hk r.
  - subst r. cbn [rollLoop List.length].
    replace (retiredCount config 0) with 0%nat by (unfold retiredCount; lia).
    cbn [firstn skipn filter map flat_map].
    rewrite demoted_nil, !app_nil_r, Z.sub_0_r. apply plan_eta.
  - destruct (Z.leb_spec (IndexesToAliasForSearch config)
                (Z.of_nat (List.length (o :: rest)))) as [Hge | Hlt].
    + subst r. cbn [List.length] in *.
      rewrite (retiredCount_retire _ _ Hge).
      cbn [rollLoop firstn skipn flat_map filter].
      assert (Hret : (searchIndexes p - 1 >=? IndexesToAliasForSearch config) = true)
        by (rewrite Z.geb_leb; apply Z.leb_le; lia).
      unfold rollStep. rewrite Hret.
      unfold cleanable at 1.
      destruct (DeleteOldIndexes config);
        [| destruct (CloseOldIndexes config && String.eqb (Status o) "open")];
        cbn [orb];
        rewrite IH by (cbn [searchIndexes]; lia);
        cbn [cleanup actions optimizes searchIndexes map app];
        rewrite <- ?app_assoc; cbn [app];
        f_equal; lia.
    + subst r. rewrite (retiredCount_keep _ _ Hlt).
      cbn [firstn skipn flat_map filter map app].
      rewrite rollLoop_keep by lia.
      now rewrite app_nil_r, Z.sub_0_r.
Qed.

(** The loop of [Roll] computes [planSpec]. *)
Lemma rollPlan_closed (config : IndexConfig) (nextIndex : string)
    (oldIndexes : list Index) :
  let p := rollPlan config nextIndex oldIndexes in
  (cleanup p, actions p, optimizes p) = planSpec config nextIndex oldIndexes.
Proof.
  unfold rollPlan, planSpec.
  rewrite rollLoop_closed by (cbn [searchIndexes]; lia).
  reflexivity.
Qed.

End PlanProperties.

(** ** Runs of [Roll] *)

Section RollProperties.
Context `{Conn}.

Lemma prefixOf_refl {A} (l : list A) : prefixOf l l.
Proof. exists []. now rewrite app_nil_r. Qed.

Lemma prefixOf_app {A} (l l1 l2 : list A) :
  prefixOf l1 l2 -> prefixOf (l ++ l1) (l ++ l2).
Proof. intros [rest ->]. exists rest. now rewrite app_assoc. Qed.

Lemma prefixOf_weaken {A} (l l1 l2 : list A) :
  prefixOf l l1 -> prefixOf l (l1 ++ l2).
Proof. intros [rest ->]. exists (rest ++ l2). now rewrite app_assoc. Qed.

Lemma prefixOf_filter {A} (f : A -> bool) (l l' : list A) :
  prefixOf l l' -> prefixOf (filter f l) (filter f l').
Proof. intros [rest ->]. exists (filter f rest). apply filter_app. Qed.

Lemma issues_skip : issues (@skip St) [].
Proof.
  intros st err st' log Hrun. inversion Hrun; subst.
  split; [apply prefixOf_refl | reflexivity].
Qed.

Lemma issues_call (r : Request) : issues (call r) [r].
Proof.
  intros st err st' log Hrun. unfold call in Hrun.
  destruct (Perform r st) as [e s]. inversion Hrun; subst.
  split; [apply prefixOf_refl | reflexivity].
Qed.

Lemma issues_andThen (a b : Exec St) (ra rb : list Request) :
  issues a ra -> issues b rb -> issues (a ;; b)%exec (ra ++ rb).
Proof.
  intros Ha Hb st err st' log Hrun. unfold andThen in Hrun.
  destruct (a st) as [[ea sta] la] eqn:Hea.
  destruct (Ha _ _ _ _ Hea) as [Hpa Hfa].
  destruct ea as [e |].
  - inversion Hrun; subst. split; [now apply prefixOf_weaken | discriminate].
  - destruct (b sta) as [[eb stb] lb] eqn:Heb.
    destruct (Hb _ _ _ _ Heb) as [Hpb Hfb].
    inversion Hrun; subst. rewrite (Hfa eq_refl).
    split; [now apply prefixOf_app |].
    intros Hnone. now rewrite (Hfb Hnone).
Qed.

Lemma rollCleanup_issues (config : IndexConfig) (names : list string) :
  issues (rollCleanup config names) (cleanupRequests config names).
Proof.
  unfold rollCleanup, cleanupRequests.
  destruct names as [| n names]; [apply issues_skip |].
  replace (0 <? Z.of_nat (List.length (n :: names))) with true
    by (symmetry; apply Z.ltb_lt; cbn [List.length]; lia).
  destruct (DeleteOldIndexes config); [apply issues_call |].
  destruct (CloseOldIndexes config); [| apply issues_skip].
  apply (issues_andThen _ _ [_] [_]); apply issues_call.
Qed.

Lemma rollOptimize_issues (config : IndexConfig) (names : list string) :
  issues (rollOptimize config names) (demotionRequests config names).
Proof.
  unfold rollOptimize, demotionRequests.
  destruct names as [| n names]; [apply issues_skip |].
  replace (0 <? Z.of_nat (List.length (n :: names))) with true
    by (symmetry; apply Z.ltb_lt; cbn [List.length]; lia).
  apply issues_andThen.
  - destruct (SettingsOnRoll config); [apply issues_call | apply issues_skip].
  - destruct (OptimizeOnRoll config); [| apply issues_skip].
    destruct (OptimizeMaxSegments config =? 0); apply issues_call.
Qed.

(** Past the gate, a roll issues the planned requests in order, up to the
    first that fails. *)
Lemma rollBody_issues (config : IndexConfig) (nextIndex : string) (st : St)
    (err : error) (st' : St) (log : list Request) :
  rollBody config nextIndex st = (err, st', log) ->
  prefixOf log (plannedRequests config nextIndex (OldIndexNames config st))
  /\ (err = None ->
      log = plannedRequests config nextIndex (OldIndexNames config st)).
Proof.
  unfold rollBody, plannedRequests.
  pose proof (rollPlan_closed config nextIndex (OldIndexNames config st)) as Hplan.
  cbv zeta in Hplan.
  destruct (planSpec config nextIndex (OldIndexNames config st))
    as [[cl acts] opt].
  inversion Hplan as [[Hcl Hacts Hopt]].
  fold (creationSettings config).
  apply (issues_andThen _ _ [_] (_ :: _)); [apply issues_call |].
  apply (issues_andThen _ _ [_] _); [apply issues_call |].
  apply issues_andThen; [apply rollCleanup_issues | apply rollOptimize_issues].
Qed.

Lemma Roll_through (config : IndexConfig) (t : Time) (st : St) :
  passesGate config t st = true ->
  Roll config t st = rollBody config (NextIndex config t) st.
Proof.
  unfold passesGate, Roll.
  destruct (RollsOnSize config).
  - destruct (HasRoom config st) as [[|] [e |]]; try discriminate. reflexivity.
  - destruct (ExistsIndex st (NextIndex config t)); [discriminate | reflexivity].
Qed.

Lemma Roll_gated (config : IndexConfig) (t : Time) (st : St) :
  passesGate config t st = false ->
  exists err, Roll config t st = (err, st, []).
Proof.
  unfold passesGate, Roll.
  destruct (RollsOnSize config).
  - destruct (HasRoom config st) as [[|] [e |]]; try discriminate; eauto.
  - destruct (ExistsIndex st (NextIndex config t)); [eauto | discriminate].
Qed.

(** C6.  When the gate lets the roll through and creating the new
    partition fails, [Roll] returns that error having issued the creation
    request and nothing else; and whenever [Roll] issues anything, its
    first request creates the new partition with the policy's [settings],
    or with the empty document when there are none. *)
Theorem Roll_create_failure (config : IndexConfig) (t : Time) (st : St) :
  (forall err st',
     passesGate config t st = true ->
     Perform (CreateIndexWithSettings (NextIndex config t)
                (creationSettings config)) st = (Some err, st') ->
     Roll config t st =
     (Some err, st',
      [CreateIndexWithSettings (NextIndex config t) (creationSettings config)])) /\
  (forall err st' r log,
     Roll config t st = (err, st', r :: log) ->
     r = CreateIndexWithSettings (NextIndex config t)
           match Settings config with Some s => s | None => [] end).
Proof.
  split.
  - intros err st' Hgate Hcreate. rewrite (Roll_through _ _ _ Hgate).
    unfold rollBody, andThen, call. fold (creationSettings config).
    now rewrite Hcreate.
  - intros err st' r log Hrun.
    destruct (passesGate config t st) eqn:Hgate.
    + rewrite (Roll_through _ _ _ Hgate) in Hrun.
      destruct (rollBody_issues _ _ _ _ _ _ Hrun) as [[rest Hpre] _].
      unfold plannedRequests in Hpre.
      destruct (planSpec config (NextIndex config t) (OldIndexNames config st))
        as [[cl acts] opt].
      cbn in Hpre. now inversion Hpre.
    + destruct (Roll_gated _ _ _ Hgate) as [e He]. rewrite He in Hrun.
      discriminate.
Qed.

End RollProperties.

(** ** Demotion and the size gate *)

Section DemotionProperties.
Context `{Conn}.


Lemma cleanupRequests_no_demotion (config : IndexConfig) (names : list string) :
  filter isDemotion (cleanupRequests config names) = [].
Proof.
  unfold cleanupRequests. destruct names; [reflexivity |].
  destruct (DeleteOldIndexes config); [reflexivity |].
  now destruct (CloseOldIndexes config).
Qed.

Lemma demotionRequests_all_demotion (config : IndexConfig) (names : list string) :
  filter isDemotion (demotionRequests config names) = demotionRequests config names.
Proof.
  unfold demotionRequests. destruct names; [reflexivity |].
  destruct (SettingsOnRoll config); now destruct (OptimizeOnRoll config).
Qed.

Lemma plannedRequests_demotion (config : IndexConfig) (nextIndex : string)
    (oldIndexes : list Index) :
  filter isDemotion (plannedRequests config nextIndex oldIndexes) =
  demotionRequests config
    (demoted config
       (skipn (retiredCount config (List.length oldIndexes)) oldIndexes)).
Proof.
  unfold plannedRequests, planSpec.
  cbn [app filter isDemotion].
  now rewrite filter_app, cleanupRequests_no_demotion,
    demotionRequests_all_demotion.
Qed.













Lemma IndexSize_ambiguous (config : IndexConfig) (st : St) :
  List.length (GetCatIndexInfo st (TargetIndex config)) <> 1%nat ->
  exists err, IndexSize config st = (0, Some err).
Proof.
  intros Hlen. unfold IndexSize.
  destruct (Z.eqb_spec
              (Z.of_nat (List.length (GetCatIndexInfo st (TargetIndex config)))) 0);
    [eauto |].
  destruct (Z.ltb_spec 1
              (Z.of_nat (List.length (GetCatIndexInfo st (TargetIndex config)))));
    [eauto | lia].
Qed.

(** The size gate (C4, where the threshold fits a signed 64-bit integer).
    [HasRoom] answers [false] without error when the target does not
    exist; with exactly one partition behind the target it compares the
    primary size with [int64] of the parsed threshold, which is the
    threshold itself below [2^63]; with none or several it returns an
    error, and [Roll] returns that error having issued nothing. *)
Lemma HasRoom_spec (config : IndexConfig) (st : St) :
  (ExistsIndex st (TargetIndex config) = false ->
     HasRoom config st = (false, None)) /\
  (forall info maxBytes,
     ExistsIndex st (TargetIndex config) = true ->
     GetCatIndexInfo st (TargetIndex config) = [info] ->
     ParseBytes (RollSize config) = inr maxBytes ->
     HasRoom config st = (CatPriSize info <? int64 maxBytes, None)
     /\ ((maxBytes < 2 ^ 63)%N ->
         HasRoom config st = (CatPriSize info <? Z.of_N maxBytes, None))) /\
  (ExistsIndex st (TargetIndex config) = true ->
     List.length (GetCatIndexInfo st (TargetIndex config)) <> 1%nat ->
     exists err,
       HasRoom config st = (true, Some err)
       /\ forall t, RollsOnSize config = true ->
                    Roll config t st = (Some err, st, [])).
Proof.
  repeat apply conj.
  - intros Hex. unfold HasRoom. now rewrite Hex.
  - intros info maxBytes Hex Hcat Hparse.
    unfold HasRoom, IndexSize. rewrite Hex, Hcat, Hparse. cbn.
    split; [reflexivity |]. intros Hsmall.
    unfold int64. rewrite Z.mod_small by lia. do 3 f_equal. lia.
  - intros Hex Hlen.
    destruct (IndexSize_ambiguous config st Hlen) as [err Herr].
    exists err.
    assert (Hroom : HasRoom config st = (true, Some err))
      by (unfold HasRoom; now rewrite Hex, Herr).
    split; [exact Hroom |]. intros t Hsize.
    unfold Roll. now rewrite Hsize, Hroom.
Qed.

(** Where the parsed threshold does not fit a signed 64-bit integer the
    conversion wraps to a negative number, and [HasRoom] finds no room
    whatever the size of the partition. *)
Lemma HasRoom_large_threshold (config : IndexConfig) (st : St)
    (info : CatIndexInfo) (maxBytes : N) :
  ExistsIndex st (TargetIndex config) = true ->
  GetCatIndexInfo st (TargetIndex config) = [info] ->
  ParseBytes (RollSize config) = inr maxBytes ->
  (2 ^ 63 <= maxBytes < 2 ^ 64)%N ->
  0 <= CatPriSize info ->
  HasRoom config st = (false, None).
Proof.
  intros Hex Hcat Hparse Hbig Hsize.
  destruct (HasRoom_spec config st) as [_ [Hone _]].
  destruct (Hone info maxBytes Hex Hcat Hparse) as [-> _].
  f_equal. apply Z.ltb_ge. unfold int64.
  replace (Z.of_N maxBytes + 2 ^ 63) with (Z.of_N maxBytes - 2 ^ 63 + 1 * 2 ^ 64)
    by lia.
  rewrite Z.mod_add by lia. rewrite Z.mod_small by lia. lia.
Qed.

End DemotionProperties.

(** ** Alias batches on the model store *)

Lemma memb_app (x : string) (l l' : list string) :
  memb x (l ++ l') = memb x l || memb x l'.
Proof. unfold memb. apply existsb_app. Qed.

Lemma memb_remove (x y : string) (l : list string) :
  memb x (filter (fun al => negb (String.eqb al y)) l) =
  memb x l && negb (String.eqb x y).
Proof.
  unfold memb. induction l as [| z l IH]; [reflexivity |].
  cbn [filter existsb].
  destruct (String.eqb_spec z y) as [Hzy | Hzy]; cbn [negb existsb]; rewrite IH.
  - subst z. destruct (String.eqb_spec x y); cbn; [| reflexivity].
    now rewrite andb_false_r.
  - destruct (String.eqb_spec x z) as [Hxz | Hxz]; cbn; [| reflexivity].
    subst z. now destruct (String.eqb_spec x y).
Qed.

Lemma memb_In (x : string) (l : list string) : memb x l = true <-> In x l.
Proof.
  unfold memb. rewrite existsb_exists. split.
  - intros [y [Hin Heq]]. apply String.eqb_eq in Heq. now subst.
  - intros Hin. exists x. split; [assumption | apply String.eqb_refl].
Qed.

Lemma applyAlias_names (a : AliasAction) (ixs : list EsIndex) :
  map ixName (applyAlias a ixs) = map ixName ixs.
Proof.
  unfold applyAlias, onIndex.
  destruct (String.eqb (action a) "add");
    [| destruct (String.eqb (action a) "remove"); [| reflexivity]];
    rewrite map_map; apply map_ext; intros ix;
    destruct (String.eqb (ixName ix) (index a)); try reflexivity.
  now destruct (memb (alias a) (ixAliases ix)).
Qed.



Lemma existsb_map_pointwise {A} (h : A -> bool) (g : A -> A) (l : list A) :
  (forall x, h (g x) = h x) -> existsb h (map g l) = existsb h l.
Proof.
  intros Hpt. induction l as [| x l IH]; [reflexivity |].
  cbn [map existsb]. now rewrite Hpt, IH.
Qed.

(** An action on another index or another alias leaves [(p, a)] alone. *)
Lemma holds_applyAlias_other (act : AliasAction) (ixs : list EsIndex)
    (p a : string) :
  index act <> p \/ alias act <> a ->
  holdsAlias (applyAlias act ixs) p a = holdsAlias ixs p a.
Proof.
  intros Hother. unfold applyAlias, onIndex, holdsAlias.
  destruct (String.eqb (action act) "add");
    [| destruct (String.eqb (action act) "remove"); [| reflexivity]];
    apply existsb_map_pointwise; intros ix;
    destruct (String.eqb_spec (ixName ix) (index act)) as [Hn | Hn];
    try reflexivity.
  - destruct (memb (alias act) (ixAliases ix)); [reflexivity |].
    cbn [ixName ixAliases].
    destruct (String.eqb_spec (ixName ix) p) as [Hp | Hp]; [| reflexivity].
    rewrite memb_app.
    destruct Hother as [Hi | Ha]; [congruence |].
    unfold memb at 2. cbn [existsb].
    destruct (String.eqb_spec a (alias act)); [congruence |].
    now rewrite !orb_false_r.
  - cbn [ixName ixAliases].
    destruct (String.eqb_spec (ixName ix) p) as [Hp | Hp]; [| reflexivity].
    rewrite memb_remove.
    destruct Hother as [Hi | Ha]; [congruence |].
    destruct (String.eqb_spec a (alias act)); [congruence |].
    now rewrite andb_true_r.
Qed.

Lemma existsb_false {A} (h : A -> bool) (l : list A) :
  (forall x, h x = false) -> existsb h l = false.
Proof.
  intros Hf. induction l as [| x l IH]; [reflexivity |].
  cbn [existsb]. now rewrite Hf, IH.
Qed.

Lemma holds_applyAlias_remove (act : AliasAction) (ixs : list EsIndex) :
  action act = "remove"%string ->
  holdsAlias (applyAlias act ixs) (index act) (alias act) = false.
Proof.
  intros Hact. unfold applyAlias, onIndex, holdsAlias. rewrite Hact.
  cbn [String.eqb Ascii.eqb Bool.eqb].
  induction ixs as [| ix ixs IH]; [reflexivity |].
  cbn [map existsb]. rewrite IH, orb_false_r.
  destruct (String.eqb_spec (ixName ix) (index act)) as [Hn | Hn].
  - cbn [ixName ixAliases]. rewrite memb_remove, String.eqb_refl.
    cbn [negb]. now rewrite !andb_false_r.
  - destruct (String.eqb_spec (ixName ix) (index act)); [contradiction | reflexivity].
Qed.



Lemma holds_applyAlias_remove_mono (act : AliasAction) (ixs : list EsIndex)
    (p a : string) :
  action act <> "add"%string ->
  holdsAlias ixs p a = false -> holdsAlias (applyAlias act ixs) p a = false.
Proof.
  intros Hact Hholds.
  destruct (String.eqb_spec (index act) p) as [Hp | Hp];
    [| rewrite holds_applyAlias_other; auto].
  destruct (String.eqb_spec (alias act) a) as [Ha | Ha];
    [| rewrite holds_applyAlias_other; auto].
  subst.
  destruct (String.eqb_spec (action act) "remove") as [Hr | Hr].
  - now apply holds_applyAlias_remove.
  - unfold applyAlias.
    destruct (String.eqb_spec (action act) "add"); [contradiction |].
    destruct (String.eqb_spec (action act) "remove"); [contradiction | assumption].
Qed.

Lemma applyAliases_names (acts : list AliasAction) :
  forall ixs, map ixName (applyAliases acts ixs) = map ixName ixs.
Proof.
  induction acts as [| act acts IH]; intros ixs; [reflexivity |].
  cbn. unfold applyAliases in IH. now rewrite IH, applyAlias_names.
Qed.





(** ** Rolls on the model store *)

Section ModelRuns.
Context `{Libs}.

Lemma insertByAge_perm (x : Index) (l : list Index) :
  Permutation (insertByAge x l) (x :: l).
Proof.
  induction l as [| y l IH]; [reflexivity |].
  cbn [insertByAge]. destruct (Less x y); [reflexivity |].
  rewrite IH. apply perm_swap.
Qed.

Lemma sortByIndexAge_perm (l : list Index) : Permutation (sortByIndexAge l) l.
Proof.
  induction l as [| x l IH]; [reflexivity |].
  cbn [sortByIndexAge fold_right]. fold (sortByIndexAge l).
  rewrite insertByAge_perm. now constructor.
Qed.

Lemma Less_asym (x y : Index) : Less x y = true -> Less y x = false.
Proof.
  unfold Less, String.ltb. rewrite (String.compare_antisym (Name y) (Name x)).
  destruct (String.compare (Name x) (Name y)); cbn; congruence.
Qed.

Lemma insertByAge_sorted (x : Index) (l : list Index) :
  Sorted (fun a b => Less b a = false) l ->
  Sorted (fun a b => Less b a = false) (insertByAge x l).
Proof.
  induction l as [| y l IH]; intros Hs.
  - repeat constructor.
  - cbn [insertByAge]. destruct (Less x y) eqn:Hxy.
    + constructor; [assumption |]. constructor. now apply Less_asym.
    + inversion Hs as [| ? ? Hs' Hhd]; subst.
      constructor; [now apply IH |].
      destruct l as [| z l']; cbn [insertByAge].
      * now constructor.
      * destruct (Less x z); constructor; [assumption |].
        now inversion Hhd.
Qed.

(** [OldIndexNames] lists the old partitions oldest first: no partition
    comes right before one of a smaller name. *)
Lemma OldIndexNames_sorted {St : Type} `{!Conn St} (config : IndexConfig) (st : St) :
  Sorted (fun a b => Less b a = false) (OldIndexNames config st).
Proof.
  unfold OldIndexNames, sortByIndexAge.
  induction (map _ (GetCatIndexInfo st _)) as [| x l IH]; [constructor |].
  cbn [fold_right]. now apply insertByAge_sorted.
Qed.

(** The old partitions are indices of the store, each listed once. *)
Lemma OldIndexNames_perm (config : IndexConfig) (st : EsStore) :
  Permutation (map Name (OldIndexNames config st))
    (map ixName
       (filter (resolves (TargetIndex config ++ "_*")%string) (esIndices st))).
Proof.
  unfold OldIndexNames. rewrite sortByIndexAge_perm.
  cbn [GetCatIndexInfo EsConn]. rewrite !map_map. cbn [Name CatName].
  reflexivity.
Qed.



Lemma OldIndexNames_in_store (config : IndexConfig) (st : EsStore) (p : string) :
  In p (map Name (OldIndexNames config st)) -> In p (map ixName (esIndices st)).
Proof.
  intros Hin.
  apply (Permutation_in _ (OldIndexNames_perm config st)) in Hin.
  apply in_map_iff in Hin as [ix [Hname Hix]].
  apply filter_In in Hix as [Hix _]. apply in_map_iff. eauto.
Qed.

Lemma stripStar_prefix (s pre : string) :
  stripStar s = Some pre -> String.prefix pre s = true.
Proof.
  revert pre. induction s as [| c s IH]; intros pre Hs; [discriminate |].
  cbn [stripStar] in Hs. destruct s as [| c' s'].
  - destruct (Ascii.eqb c "*"); [| discriminate]. now inversion Hs.
  - destruct (stripStar (String c' s')) as [pre' |]; [| discriminate].
    inversion Hs; subst. cbn [String.prefix].
    destruct (ascii_dec c c); [now apply IH | contradiction].
Qed.

(** A name resolves to the index that bears it. *)
Lemma resolves_self (ix : EsIndex) : resolves (ixName ix) ix = true.
Proof.
  unfold resolves. destruct (stripStar (ixName ix)) as [pre |] eqn:Hs.
  - now apply stripStar_prefix.
  - now rewrite String.eqb_refl.
Qed.

Lemma unresolved_not_name (name : string) (ixs : list EsIndex) :
  existsb (resolves name) ixs = false -> ~ In name (map ixName ixs).
Proof.
  intros Hex Hin. apply in_map_iff in Hin as [ix [Hname Hix]].
  assert (Htrue : existsb (resolves name) ixs = true).
  { apply existsb_exists. exists ix. split; [assumption |].
    rewrite <- Hname. apply resolves_self. }
  congruence.
Qed.

Lemma es_rollCleanup (config : IndexConfig) (names : list string) (st : EsStore) :
  rollCleanup config names st =
  (None, mkEsStore (cleanupEffect config names (esIndices st)) (esConfigs st),
   cleanupRequests config names).
Proof.
  unfold rollCleanup, cleanupEffect, cleanupRequests.
  destruct names as [| n names]; [now destruct st |].
  replace (0 <? Z.of_nat (List.length (n :: names))) with true
    by (symmetry; apply Z.ltb_lt; cbn [List.length]; lia).
  destruct (DeleteOldIndexes config); [reflexivity |].
  destruct (CloseOldIndexes config); [reflexivity | now destruct st].
Qed.

Lemma es_rollOptimize (config : IndexConfig) (names : list string) (st : EsStore) :
  rollOptimize config names st = (None, st, demotionRequests config names).
Proof.
  unfold rollOptimize, demotionRequests.
  destruct names as [| n names]; [reflexivity |].
  replace (0 <? Z.of_nat (List.length (n :: names))) with true
    by (symmetry; apply Z.ltb_lt; cbn [List.length]; lia).
  destruct (SettingsOnRoll config); destruct (OptimizeOnRoll config);
    try destruct (OptimizeMaxSegments config =? 0); reflexivity.
Qed.

(** A roll that runs to its end on the model store: the new index did not
    exist, and the store it leaves is the old one with the new index, the
    alias batch applied and the cleanup done. *)
Lemma es_rollBody_success (config : IndexConfig) (nextIndex : string)
    (st st' : EsStore) (log : list Request) :
  rollBody config nextIndex st = (None, st', log) ->
  existsb (resolves nextIndex) (esIndices st) = false
  /\ match planSpec config nextIndex (OldIndexNames config st) with
     | (cl, acts, _) =>
         esIndices st' =
         cleanupEffect config cl
           (applyAliases acts
              (esIndices st ++ [mkEsIndex nextIndex "open" 0 []]))
     end.
Proof.
  unfold rollBody.
  pose proof (rollPlan_closed config nextIndex (OldIndexNames config st)) as Hplan.
  cbv zeta in Hplan.
  destruct (planSpec config nextIndex (OldIndexNames config st))
    as [[cl acts] opt].
  inversion Hplan as [[Hcl Hacts Hopt]]. clear Hplan.
  cbv zeta. rewrite Hcl, Hacts, Hopt.
  unfold andThen at 1. unfold call at 1. cbn [Perform EsConn esPerform].
  destruct (existsb (resolves nextIndex) (esIndices st)); [discriminate |].
  unfold andThen at 1. unfold call at 1. cbn [Perform EsConn esPerform esIndices].
  destruct (forallb _ acts); [| discriminate].
  unfold andThen. rewrite es_rollCleanup, es_rollOptimize.
  intros Hrun. inversion Hrun; subst. split; reflexivity.
Qed.

Lemma holdsAlias_In (ixs : list EsIndex) (p a : string) :
  holdsAlias ixs p a = true -> In p (map ixName ixs).
Proof.
  unfold holdsAlias. intros Hh.
  apply existsb_exists in Hh as [ix [Hin Hix]].
  apply andb_true_iff in Hix as [Hname _]. apply String.eqb_eq in Hname.
  apply in_map_iff. eauto.
Qed.


Lemma holds_cleanup_false (config : IndexConfig) (names : list string)
    (ixs : list EsIndex) (p a : string) :
  holdsAlias ixs p a = false ->
  holdsAlias (cleanupEffect config names ixs) p a = false.
Proof.
  intros Hfalse. unfold cleanupEffect.
  destruct names as [| n names']; [assumption |].
  destruct (DeleteOldIndexes config).
  - unfold holdsAlias in *. induction ixs as [| ix ixs IH]; [reflexivity |].
    cbn [existsb] in Hfalse. apply orb_false_iff in Hfalse as [Hix Hrest].
    cbn [filter]. destruct (negb (memb (ixName ix) (n :: names'))).
    + cbn [existsb]. now rewrite Hix, IH.
    + now apply IH.
  - destruct (CloseOldIndexes config); [| assumption].
    rewrite <- Hfalse. unfold holdsAlias. apply existsb_map_pointwise.
    intros ix. now destruct (memb (ixName ix) (n :: names')).
Qed.

End ModelRuns.

(** ** Idempotence *)

Section Idempotence.
Context `{Libs}.

Lemma name_resolves (name : string) (ixs : list EsIndex) :
  In name (map ixName ixs) -> existsb (resolves name) ixs = true.
Proof.
  intros Hin. apply in_map_iff in Hin as [ix [Hname Hix]].
  apply existsb_exists. exists ix. split; [assumption |].
  rewrite <- Hname. apply resolves_self.
Qed.

Lemma cleanupEffect_names (config : IndexConfig) (names : list string)
    (ixs : list EsIndex) (p : string) :
  ~ In p names -> In p (map ixName ixs) ->
  In p (map ixName (cleanupEffect config names ixs)).
Proof.
  intros Hnotin Hin. unfold cleanupEffect.
  destruct names as [| n names']; [assumption |].
  destruct (DeleteOldIndexes config).
  - apply in_map_iff in Hin as [ix [Hname Hix]]. apply in_map_iff.
    exists ix. split; [assumption |]. apply filter_In. split; [assumption |].
    destruct (memb (ixName ix) (n :: names')) eqn:Hm; [| reflexivity].
    apply memb_In in Hm. congruence.
  - destruct (CloseOldIndexes config); [| assumption].
    rewrite map_map.
    replace (map _ ixs) with (map ixName ixs); [assumption |].
    apply map_ext. intros ix. now destruct (memb (ixName ix) (n :: names')).
Qed.

(** Whatever a roll past its gate returns on the model store, the new
    partition exists afterwards when it did not before. *)
Lemma es_rollBody_creates (config : IndexConfig) (nextIndex : string)
    (st st' : EsStore) (err : error) (log : list Request) :
  existsb (resolves nextIndex) (esIndices st) = false ->
  rollBody config nextIndex st = (err, st', log) ->
  In nextIndex (map ixName (esIndices st')).
Proof.
  intros Hnew. unfold rollBody.
  pose proof (rollPlan_closed config nextIndex (OldIndexNames config st)) as Hplan.
  cbv zeta in Hplan. unfold planSpec in Hplan.
  inversion Hplan as [[Hcl Hacts Hopt]]. clear Hplan.
  cbv zeta. rewrite Hcl.
  set (cl := map Name (filter (cleanable config) _)).
  assert (Hnext_cl : ~ In nextIndex cl).
  { intros Hin. apply (unresolved_not_name _ _ Hnew).
    apply (OldIndexNames_in_store config st).
    unfold cl in Hin. apply in_map_iff in Hin as [o [Hname Ho]].
    apply filter_In in Ho as [Ho _].
    apply in_map_iff. exists o. split; [assumption |].
    rewrite <- (firstn_skipn (retiredCount config
                                (List.length (OldIndexNames config st)))).
    apply in_or_app. now left. }
  assert (Hin1 : In nextIndex
                   (map ixName (esIndices st ++ [mkEsIndex nextIndex "open" 0 []]))).
  { rewrite map_app. apply in_or_app. right. now left. }
  unfold andThen at 1. unfold call at 1. cbn [Perform EsConn esPerform].
  rewrite Hnew.
  unfold andThen at 1. unfold call at 1. cbn [Perform EsConn esPerform esIndices].
  destruct (forallb _ _).
  - unfold andThen. rewrite es_rollCleanup, es_rollOptimize.
    intros Hrun. inversion Hrun; subst. cbn [esIndices].
    apply cleanupEffect_names; [assumption |].
    now rewrite applyAliases_names.
  - intros Hrun. now inversion Hrun; subst.
Qed.

(** C3.  For a time-based policy, an instant whose partition already
    exists makes [Roll] return success with the store as it was and no
    request issued, on any store; and on the model store a second call at
    an instant of the same partition name, whatever the first call
    returned, returns success, leaves the store as it is and issues
    nothing. *)
Theorem Roll_idempotent (config : IndexConfig) (t1 t2 : Time) :
  RollsOnSize config = false ->
  NextIndex config t1 = NextIndex config t2 ->
  (forall (St : Type) (C : Conn St) (st : St),
     ExistsIndex st (NextIndex config t2) = true ->
     Roll config t2 st = (None, st, [])) /\
  (forall (st st1 : EsStore) (err : error) (log1 : list Request),
     Roll config t1 st = (err, st1, log1) ->
     Roll config t2 st1 = (None, st1, [])).
Proof.
  intros Htime Hname.
  assert (Hgate : forall (St : Type) (C : Conn St) (st : St),
             ExistsIndex st (NextIndex config t2) = true ->
             Roll config t2 st = (None, st, [])).
  { intros St C st Hex. unfold Roll. now rewrite Htime, Hex. }
  split; [exact Hgate |].
  intros st st1 err log1 Hrun. apply Hgate. rewrite <- Hname.
  unfold Roll in Hrun. rewrite Htime in Hrun.
  destruct (ExistsIndex st (NextIndex config t1)) eqn:Hex.
  - now inversion Hrun; subst.
  - cbn [ExistsIndex EsConn] in *. apply name_resolves.
    now apply (es_rollBody_creates config _ st st1 err log1).
Qed.

End Idempotence.

(** ** The handle topology after a roll *)

Section TopologyProperties.
Context `{Libs}.

Lemma filter_none {A} (f : A -> bool) (l : list A) :
  (forall x, In x l -> f x = false) -> filter f l = [].
Proof.
  induction l as [| x l IH]; intros Hall; [reflexivity |].
  cbn [filter]. rewrite (Hall x) by now left.
  apply IH. intros y Hy. apply Hall. now right.
Qed.

Lemma filter_all {A} (f : A -> bool) (l : list A) :
  (forall x, In x l -> f x = true) -> filter f l = l.
Proof.
  induction l as [| x l IH]; intros Hall; [reflexivity |].
  cbn [filter]. rewrite (Hall x) by now left.
  f_equal. apply IH. intros y Hy. apply Hall. now right.
Qed.




Lemma holdsAlias_new (ixs : list EsIndex) (name p a : string) :
  holdsAlias (ixs ++ [mkEsIndex name "open" 0 []]) p a = holdsAlias ixs p a.
Proof.
  unfold holdsAlias. rewrite existsb_app. cbn [existsb ixName ixAliases].
  unfold memb. cbn [existsb]. now rewrite andb_false_r, !orb_false_r.
Qed.


(** The actions of a plan: the two adds on the new index, both removes
    for a retired partition, the write remove for a kept one. *)
Lemma planSpec_actions (config : IndexConfig) (nextIndex : string)
    (old : list Index) (act : AliasAction) :
  let r := retiredCount config (List.length old) in
  In act (snd (fst (planSpec config nextIndex old))) ->
  act = mkAliasAction "add" nextIndex (TargetIndex config)
  \/ act = mkAliasAction "add" nextIndex (searchAlias config)
  \/ (exists o, In o (firstn r old)
                /\ (act = rmWrite config o \/ act = rmSearch config o))
  \/ (exists o, In o (skipn r old) /\ act = rmWrite config o).
Proof.
  intros r. unfold planSpec. cbn [fst snd]. fold r. intros Hin.
  cbn [app] in Hin. destruct Hin as [<- | [<- | Hin]]; [now left | now right; left |].
  right. right. apply in_app_or in Hin as [Hin | Hin].
  - left. apply in_flat_map in Hin as [o [Ho Hact]]. exists o. split; [assumption |].
    cbn in Hact. destruct Hact as [<- | [<- | []]]; [now left | now right].
  - right. apply in_map_iff in Hin as [o [<- Ho]]. now exists o.
Qed.


End TopologyProperties.

(** ** The properties on the sample policies and stores *)

Section SampleRuns.
#[local] Existing Instance SampleLibs.

Lemma triple_eta {A B C} (x : A * B * C) : x = (fst (fst x), snd (fst x), snd x).
Proof. now destruct x as [[a b] c]. Qed.

(** [storeFanout1] and [storeFanout2] are what the rolls of 2016 and 2017
    leave of the empty store, with fan-out 1 and 2. *)
Lemma sample_stores_reached :
  snd (fst (Roll (policyYears 1) (newYear 2017)
              (snd (fst (Roll (policyYears 1) (newYear 2016) storeEmpty)))))
    = storeFanout1
  /\ snd (fst (Roll (policyYears 2) (newYear 2017)
                 (snd (fst (Roll (policyYears 2) (newYear 2016) storeEmpty)))))
     = storeFanout2.
Proof. split; reflexivity. Qed.

(** Four yearly rolls of a policy that closes what it retires. *)
Lemma sample_rolls_closing :
  esIndices
    (fold_left
       (fun st y => snd (fst (Roll policyYearsClosing (newYear y) st)))
       [2016; 2017; 2018; 2019] storeEmpty)
  = [ mkEsIndex "logs_2016" "close" 0 [];
      mkEsIndex "logs_2017" "close" 0 [];
      mkEsIndex "logs_2018" "open" 0 ["logs_search"%string];
      mkEsIndex "logs_2019" "open" 0 ["logs"%string; "logs_search"%string] ].
Proof. reflexivity. Qed.



(** C3: a roll on new year's day 2018 and a second call in June 2018. *)
Lemma Roll_idempotent_witness :
  Roll (policyYears 2) (midYear 2018)
    (snd (fst (Roll (policyYears 2) (newYear 2018) storeFanout2)))
  = (None, snd (fst (Roll (policyYears 2) (newYear 2018) storeFanout2)), []).
Proof.
  exact (proj2 (Roll_idempotent (policyYears 2) (newYear 2018) (midYear 2018)
                  eq_refl eq_refl)
           storeFanout2 _ _ _
           (triple_eta (Roll (policyYears 2) (newYear 2018) storeFanout2))).
Defined.

(** C4 fails on the code where the threshold does not fit a signed 64-bit
    integer: [rollSize] ["10EB"] (10^19 bytes) passes [Validate], and with
    a primary size of 100 bytes [HasRoom] answers that there is no room,
    so that [Roll] goes on to create a partition. *)
Lemma HasRoom_threshold_wraps :
  ParseBytes "10EB" = inr (10 ^ 19)%N
  /\ Validate (policyBytes "10EB") = None
  /\ (100 <? Z.of_N (10 ^ 19)) = true
  /\ HasRoom (policyBytes "10EB") (storeSnowball 100) = (false, None)
  /\ passesGate (policyBytes "10EB") sizeTick (storeSnowball 100) = true.
Proof. repeat split; reflexivity. Qed.


(** C6: a size-based roll whose partition name is taken (a second size
    tick within the second): creation fails. *)
Lemma Roll_create_failure_witness :
  Roll (policyBytes "20KB") sizeTick (storeSnowball 22400)
  = (Some "index already exists"%string, storeSnowball 22400,
     [CreateIndexWithSettings "snowball_2016-06-03-17-36-53" []]).
Proof.
  exact (proj1 (Roll_create_failure (policyBytes "20KB") sizeTick
                  (storeSnowball 22400))
           "index already exists"%string (storeSnowball 22400) eq_refl eq_refl).
Defined.

(** C7 on a document without [rollUnit] next to a valid one. *)
Lemma GetConfigs_drops_invalid_witness :
  GetConfigs (storeDocs [docNoUnit; docSnowball])
  = (Return (inr (validPolicies [docNoUnit; docSnowball])),
     validationErrors [docNoUnit; docSnowball]).
Proof.
  exact (proj1 (GetConfigs_drops_invalid
                  (storeDocs [docNoUnit; docSnowball])
                  (mkSearchResult 2 [docNoUnit; docSnowball])
                  eq_refl ltac:(discriminate))
           eq_refl).
Defined.

(** C7 fails as stated: a document that does not decode in front of a
    valid one makes the load return the decoding error and no policy. *)
Lemma GetConfigs_counterexample :
  ~ load_keeps_every_valid_policy (storeDocs [docUndecodable; docSnowball]).
Proof.
  intros Hclaim.
  destruct (Hclaim (mkSearchResult 2 [docUndecodable; docSnowball]) docSnowball
              (SetDefaults
                 (with_Id
                    (mkIndexConfig "" None None "snowball" 3 "minutes" "" 4
                       "search" false true true 2) "snowball"))
              eq_refl ltac:(discriminate) (or_intror (or_introl eq_refl))
              eq_refl eq_refl)
    as [cs [Hload _]].
  vm_compute in Hload. discriminate.
Qed.

(** C8 fails as stated: with a single stored document that has no
    [rollUnit] the load yields no policy and no error, and one-shot mode
    exits with 0. *)
Lemma main_exit_counterexample :
  ~ exit_code_tells_valid_policy (storeDocs [docNoUnit]).
Proof.
  intros Hclaim.
  destruct (Hclaim (fun _ => inl "no such file"%string)
              (fun _ => newYear 2016) 0 eq_refl) as [_ Hzero].
  now apply Hzero.
Qed.

(** The ways of C8 on samples: one-shot mode exits with 1 on a document
    that does not decode and panics on a hit without source or a PEM file
    that cannot be read; the daemon stays in its loop over a reload that
    returns an error, and panics at a reload that meets a hit without
    source. *)
Lemma sample_exits :
  exitCode (main noFiles (mkEsRollConfig "" "" false) (fun _ => newYear 2016)
              (storeDocs [docSnowball; docUndecodable])) = Some 1
  /\ exitCode (main noFiles (mkEsRollConfig "" "" false) (fun _ => newYear 2016)
                 (storeDocs [docSnowball; docSourceless])) = Some 2
  /\ exitCode (main noFiles (mkEsRollConfig "" "ca.pem" false)
                 (fun _ => newYear 2016) (storeDocs [docSnowball])) = Some 2
  /\ exitCode (runEvents [ConfigTicker (fun i => i); WorkQ threePastOne]
                 (main noFiles (mkEsRollConfig "" "" true)
                    (fun _ => newYear 2016)
                    (storeDocs [docSnowball; docUndecodable]))) = None
  /\ exitCode (runEvents [WorkQ threePastOne; ConfigTicker (fun i => i)]
                 (Serving (mkDaemonState [] None []
                             (mkWorld (storeDocs [docSnowball; docSourceless])
                                [] [])))) = Some 2.
Proof. repeat split; reflexivity. Qed.

(** C10 on a document with [searchAliases] 0: it is loaded with 2. *)
Lemma GetConfigs_fanout_positive_witness :
  1 <= IndexesToAliasForSearch
         (SetDefaults
            (with_Id
               (mkIndexConfig "" None None "" 1 "years" "" 0 "" false false
                  false 0) "logs")).
Proof.
  exact (GetConfigs_fanout_positive (storeDocs [docNoUnit; docZeroFanout])
           _ _ _ eq_refl (or_introl eq_refl)).
Defined.

End SampleRuns.

(** * Further properties *)

(** ** Policies and their validation *)

Section PolicyFacts.
Context `{Libs}.

Lemma rollUnits_names (u : string) : map_get rollUnits u = true <-> In u unitNames.
Proof.
  unfold rollUnits, unitNames. cbn [map_get In]. split.
  - intros Hget.
    repeat match type of Hget with
           | context [String.eqb ?k u] =>
               destruct (String.eqb_spec k u); [subst; tauto |]
           end.
    discriminate.
  - intros Hin.
    repeat (destruct Hin as [<- | Hin]; [reflexivity |]). contradiction.
Qed.

Lemma Validate_accepted (config : IndexConfig) :
  Validate config = None ->
  Id config <> ""%string
  /\ 0 <= IndexesToAliasForSearch config
  /\ In (RollUnit config) unitNames
  /\ 0 <= OptimizeMaxSegments config
  /\ (RollUnit config = "bytes"%string ->
      RollSize config <> ""%string
      /\ exists maxBytes, ParseBytes (RollSize config) = inr maxBytes
                          /\ maxBytes <> 0%N).
Proof.
  unfold Validate. rewrite <- rollUnits_names.
  destruct (String.eqb_spec (Id config) "") as [Hid | Hid]; [discriminate |].
  destruct (Z.ltb_spec (IndexesToAliasForSearch config) 0) as [Hfan | Hfan];
    [discriminate |].
  destruct (String.eqb_spec (RollUnit config) "") as [Hunit | Hunit];
    [discriminate |].
  destruct (map_get rollUnits (RollUnit config)) eqn:Hget; cbn [Bool.eqb];
    [| discriminate].
  destruct (Z.ltb_spec (OptimizeMaxSegments config) 0) as [Hseg | Hseg];
    [discriminate |].
  destruct (String.eqb_spec (RollUnit config) "bytes") as [Hbytes | Hbytes];
    [| intros _; repeat split; auto; contradiction].
  destruct (String.eqb_spec (RollSize config) "") as [Hsize | Hsize];
    [discriminate |].
  destruct (ParseBytes (RollSize config)) as [err | maxBytes] eqn:Hparse;
    [discriminate |].
  destruct (N.eqb_spec maxBytes 0) as [Hzero | Hzero]; [discriminate |].
  intros _. repeat split; auto. eauto.
Qed.

(** X1.  [Validate] accepts a policy exactly when its id is not empty, its
    search fan-out and [optimizeMaxSegments] are not negative, its
    [rollUnit] is one of the six units and, for [bytes], [rollSize] is not
    empty and parses to a size other than 0.  Neither [rollIncrement] nor
    [targetIndex] is looked at. *)
Theorem Validate_accepts_iff (config : IndexConfig) :
  Validate config = None <->
  Id config <> ""%string
  /\ 0 <= IndexesToAliasForSearch config
  /\ In (RollUnit config) unitNames
  /\ 0 <= OptimizeMaxSegments config
  /\ (RollUnit config = "bytes"%string ->
      RollSize config <> ""%string
      /\ exists maxBytes, ParseBytes (RollSize config) = inr maxBytes
                          /\ maxBytes <> 0%N).
Proof.
  split; [apply Validate_accepted |].
  intros [Hid [Hfan [Hunit [Hseg Hbytes]]]].
  apply rollUnits_names in Hunit. unfold Validate. rewrite Hunit.
  destruct (String.eqb_spec (Id config) ""); [contradiction |].
  destruct (Z.ltb_spec (IndexesToAliasForSearch config) 0); [lia |].
  destruct (String.eqb_spec (RollUnit config) "") as [Hempty | _];
    [now rewrite Hempty in Hunit |].
  cbn [Bool.eqb].
  destruct (Z.ltb_spec (OptimizeMaxSegments config) 0); [lia |].
  destruct (String.eqb_spec (RollUnit config) "bytes") as [Hb | _];
    [| reflexivity].
  destruct (Hbytes Hb) as [Hsize [maxBytes [Hparse Hnz]]].
  destruct (String.eqb_spec (RollSize config) ""); [contradiction |].
  rewrite Hparse. now destruct (N.eqb_spec maxBytes 0).
Qed.

Ltac fields :=
  cbn [TargetIndex SearchSuffix IndexesToAliasForSearch Id Settings
         SettingsOnRoll RollIncrement RollUnit RollSize DeleteOldIndexes
         CloseOldIndexes OptimizeOnRoll OptimizeMaxSegments].

Lemma SetDefaults_fields (config : IndexConfig) :
  TargetIndex (SetDefaults config) =
    (if String.eqb (TargetIndex config) "" then Id config
     else TargetIndex config)
  /\ SearchSuffix (SetDefaults config) =
       (if String.eqb (SearchSuffix config) "" then "search"%string
        else SearchSuffix config)
  /\ IndexesToAliasForSearch (SetDefaults config) =
       (if IndexesToAliasForSearch config =? 0 then 2
        else IndexesToAliasForSearch config)
  /\ SetDefaults config =
       mkIndexConfig (Id config) (Settings config) (SettingsOnRoll config)
         (TargetIndex (SetDefaults config)) (RollIncrement config)
         (RollUnit config) (RollSize config)
         (IndexesToAliasForSearch (SetDefaults config))
         (SearchSuffix (SetDefaults config)) (DeleteOldIndexes config)
         (CloseOldIndexes config) (OptimizeOnRoll config)
         (OptimizeMaxSegments config).
Proof.
  destruct config as [id se sr ta ri ru rs fa su de cl op ms].
  unfold SetDefaults, with_TargetIndex, with_SearchSuffix,
    with_IndexesToAliasForSearch.
  fields. destruct (String.eqb ta ""); fields;
    destruct (String.eqb su ""); fields;
    destruct (fa =? 0); fields; repeat apply conj; reflexivity.
Qed.

Lemma SetDefaults_fixed (config : IndexConfig) :
  (TargetIndex config = ""%string -> Id config = ""%string) ->
  SearchSuffix config <> ""%string ->
  IndexesToAliasForSearch config <> 0 ->
  SetDefaults config = config.
Proof.
  destruct config as [id se sr ta ri ru rs fa su de cl op ms].
  fields. intros Hta Hsu Hfa.
  unfold SetDefaults, with_TargetIndex, with_SearchSuffix,
    with_IndexesToAliasForSearch.
  fields.
  destruct (String.eqb_spec ta "") as [Ht | Ht]; fields;
    (destruct (String.eqb_spec su "") as [Hs | Hs]; [contradiction |]); fields;
    (destruct (Z.eqb_spec fa 0) as [Hf | Hf]; [contradiction |]);
    [rewrite Ht, (Hta Ht) |]; reflexivity.
Qed.

Lemma SetDefaults_twice (config : IndexConfig) :
  SetDefaults (SetDefaults config) = SetDefaults config.
Proof.
  destruct (SetDefaults_fields config) as [Hta [Hsu [Hfa Heq]]].
  apply SetDefaults_fixed.
  - rewrite Hta. rewrite Heq. cbn [Id].
    destruct (String.eqb_spec (TargetIndex config) ""); [auto | contradiction].
  - rewrite Hsu. destruct (String.eqb_spec (SearchSuffix config) "");
      [discriminate | assumption].
  - rewrite Hfa. destruct (Z.eqb_spec (IndexesToAliasForSearch config) 0);
      [discriminate | assumption].
Qed.

(** X2.  [SetDefaults] is idempotent, fills only what is empty or 0 (the
    target with the id, the suffix with ["search"], the fan-out with 2) and
    leaves every other field, [rollIncrement] included, as it was. *)
Theorem SetDefaults_idempotent (config : IndexConfig) :
  SetDefaults (SetDefaults config) = SetDefaults config
  /\ TargetIndex (SetDefaults config) =
       (if String.eqb (TargetIndex config) "" then Id config
        else TargetIndex config)
  /\ SearchSuffix (SetDefaults config) =
       (if String.eqb (SearchSuffix config) "" then "search"%string
        else SearchSuffix config)
  /\ IndexesToAliasForSearch (SetDefaults config) =
       (if IndexesToAliasForSearch config =? 0 then 2
        else IndexesToAliasForSearch config)
  /\ RollIncrement (SetDefaults config) = RollIncrement config
  /\ RollUnit (SetDefaults config) = RollUnit config
  /\ RollSize (SetDefaults config) = RollSize config.
Proof.
  destruct (SetDefaults_fields config) as [Hta [Hsu [Hfa Heq]]].
  split; [apply SetDefaults_twice |].
  rewrite Heq at 4 5 6. now repeat split.
Qed.

(** X5.  Whenever a policy is due at an instant, the instant is on a full
    minute: [AddWork], the filter of the clock goroutine, lets through
    every instant at which [ShouldRoll] holds of some policy. *)
Theorem ShouldRoll_implies_AddWork (config : IndexConfig) (t : Time) :
  ShouldRoll config t = true -> AddWork t = true.
Proof.
  unfold ShouldRoll, AddWork.
  destruct (RollsOnSize config); cbn [negb]; [discriminate |].
  destruct (String.eqb (RollUnit config) "minutes");
    [| destruct (String.eqb (RollUnit config) "hours")];
    destruct (negb (RollIncrement config =? 0));
    repeat match goal with
           | |- context [if String.eqb ?a ?b then _ else _] =>
               destruct (String.eqb a b)
           end;
    intros Hroll; repeat (apply andb_true_iff in Hroll as [Hroll _]);
    assumption.
Qed.

(** X6.  A [rollIncrement] of 0 (not configured) makes a policy due at the
    same instants as a [rollIncrement] of 1. *)
Theorem ShouldRoll_increment_default (config : IndexConfig) (t : Time) :
  ShouldRoll (with_RollIncrement config 0) t
  = ShouldRoll (with_RollIncrement config 1) t.
Proof.
  unfold ShouldRoll, RollsOnSize, with_RollIncrement.
  cbn [RollUnit RollIncrement Z.eqb negb].
  rewrite !Z.rem_1_r. cbn [Z.eqb].
  repeat match goal with
         | |- context [if String.eqb ?a ?b then _ else _] =>
             destruct (String.eqb a b)
         end;
    cbn [negb]; now rewrite ?andb_true_r.
Qed.

End PolicyFacts.

(** ** The working set *)

Section WorkingSetFacts.
Context `{Conn}.

Lemma loadHits_Forall (P : IndexConfig -> Prop) :
  (forall hit c, policyOf hit = Some (inr c) -> Validate c = None -> P c) ->
  forall hits acc out cs out',
    Forall P acc ->
    loadHits hits acc out = (Return (inr cs), out') ->
    Forall P cs.
Proof.
  intros HP. induction hits as [| hit rest IH]; intros acc out cs out' Hacc Hload.
  - cbn in Hload. now inversion Hload; subst.
  - cbn in Hload. pose proof (HP hit) as Hhit. unfold policyOf in Hhit.
    destruct (HitSource hit) as [source |]; [| discriminate].
    destruct (json_Unmarshal source) as [e | c]; [discriminate |].
    destruct (Validate (SetDefaults (with_Id c (HitId hit)))) as [e |] eqn:Hval.
    + eapply IH; eauto.
    + eapply IH; [| exact Hload].
      apply Forall_app. split; [assumption |].
      constructor; [| constructor]. now apply Hhit.
Qed.

(** The first hit that does not decode, when there is one. *)
Lemma undecodable_split (hits : list Hit) :
  forallb decodes hits = false ->
  exists pre bad post,
    hits = pre ++ bad :: post
    /\ forallb decodes pre = true
    /\ decodes bad = false
    /\ find (fun hit => negb (decodes hit)) hits = Some bad.
Proof.
  induction hits as [| hit rest IH]; [discriminate |].
  cbn [forallb find]. destruct (decodes hit) eqn:Hdec; cbn [andb negb].
  - intros Hrest.
    destruct (IH Hrest) as [pre [bad [post [-> [Hpre [Hbad Hfind]]]]]].
    exists (hit :: pre), bad, post. repeat split; try assumption.
    cbn [forallb]. now rewrite Hdec.
  - intros _. exists [], hit, rest. now repeat split.
Qed.

Lemma decoded_find (hits : list Hit) :
  forallb decodes hits = true ->
  find (fun hit => negb (decodes hit)) hits = None.
Proof.
  induction hits as [| hit rest IH]; [reflexivity |].
  cbn [forallb find]. destruct (decodes hit); cbn [andb negb];
    [exact IH | discriminate].
Qed.

(** X3.  Every policy a load accepts is complete: it carries the id of its
    document, which is not empty, a target and a search suffix that are not
    empty, one of the six units, an [optimizeMaxSegments] that is not
    negative, and applying the defaults to it again changes nothing. *)
Theorem GetConfigs_policies_complete (st : St) (cs : list IndexConfig)
    (out : list string) (config : IndexConfig) :
  GetConfigs st = (Return (inr cs), out) -> In config cs ->
  Id config <> ""%string
  /\ TargetIndex config <> ""%string
  /\ SearchSuffix config <> ""%string
  /\ In (RollUnit config) unitNames
  /\ 0 <= OptimizeMaxSegments config
  /\ SetDefaults config = config.
Proof.
  unfold GetConfigs. intros Hload Hin.
  destruct (SearchConfigs st) as [e | res]; [discriminate |].
  destruct (Total res =? 0); [discriminate |].
  pose proof (loadHits_Forall
                (fun c => Id c <> ""%string
                          /\ TargetIndex c <> ""%string
                          /\ SearchSuffix c <> ""%string
                          /\ In (RollUnit c) unitNames
                          /\ 0 <= OptimizeMaxSegments c
                          /\ SetDefaults c = c)) as Hall.
  eapply Forall_forall in Hall; [exact Hall | | apply Forall_nil | exact Hload | exact Hin].
  clear. intros hit c Hpol Hval. unfold policyOf in Hpol.
  destruct (HitSource hit) as [source |]; [| discriminate].
  destruct (json_Unmarshal source) as [e | raw]; [discriminate |].
  inversion Hpol; subst. clear Hpol.
  apply Validate_accepted in Hval as [Hid [_ [Hunit [Hseg _]]]].
  pose proof (SetDefaults_twice (with_Id raw (HitId hit))) as Hidem.
  destruct (SetDefaults_fields (with_Id raw (HitId hit)))
    as [Hta [Hsu [_ Heq]]].
  assert (Hid' : Id (SetDefaults (with_Id raw (HitId hit))) = HitId hit)
    by (rewrite Heq; reflexivity).
  rewrite Hid' in Hid.
  repeat split; try assumption.
  - rewrite Hid'. assumption.
  - rewrite Hta. cbn [TargetIndex Id with_Id].
    destruct (String.eqb_spec (TargetIndex raw) ""); assumption.
  - rewrite Hsu. cbn [SearchSuffix with_Id].
    destruct (String.eqb_spec (SearchSuffix raw) ""); [discriminate | assumption].
Qed.

(** X4.  A load returns an error exactly when the search fails, reports no
    document, or the first hit that does not decode carries a source (which
    [json.Unmarshal] then rejects); it panics exactly when the search
    reports documents and the first hit that does not decode carries no
    source.  Documents that fail validation, even all of them, cause
    neither. *)
Theorem GetConfigs_error_iff (st : St) :
  returnsError (fst (GetConfigs st)) =
    match SearchConfigs st with
    | inl _ => true
    | inr res =>
        (Total res =? 0)
        || match find (fun hit => negb (decodes hit)) (Hits res) with
           | Some bad => hasSource bad
           | None => false
           end
    end
  /\ panics (fst (GetConfigs st)) =
       match SearchConfigs st with
       | inl _ => false
       | inr res =>
           negb (Total res =? 0)
           && match find (fun hit => negb (decodes hit)) (Hits res) with
              | Some bad => negb (hasSource bad)
              | None => false
              end
       end.
Proof.
  unfold GetConfigs. destruct (SearchConfigs st) as [e | res]; [now split |].
  destruct (Total res =? 0); [now split |]. cbn [orb andb negb].
  destruct (forallb decodes (Hits res)) eqn:Hdec.
  - rewrite (loadHits_decoded _ Hdec), (decoded_find _ Hdec). now split.
  - destruct (undecodable_split _ Hdec)
      as [pre [bad [post [Hhits [Hpre [Hbad Hfind]]]]]].
    rewrite Hfind, Hhits. unfold hasSource.
    unfold decodes, policyOf in Hbad.
    destruct (HitSource bad) as [source |] eqn:Hsrc.
    + destruct (json_Unmarshal source) as [err | c] eqn:Hun; [| discriminate].
      rewrite (loadHits_undecodable pre bad post source err Hpre Hsrc Hun).
      now split.
    + rewrite (loadHits_sourceless pre bad post Hpre Hsrc). now split.
Qed.

End WorkingSetFacts.

(** ** The requests of a roll *)

Section RollRequestFacts.
Context `{Conn}.

Lemma andThen_call_nonempty (r : Request) (b : Exec St) (st st' : St)
    (err : error) (log : list Request) :
  (call r ;; b)%exec st = (err, st', log) -> log <> [].
Proof.
  unfold andThen, call. destruct (Perform r st) as [[e |] s].
  - intros Hrun. inversion Hrun. discriminate.
  - destruct (b s) as [[e0 s0] l0]. intros Hrun. inversion Hrun. discriminate.
Qed.

Lemma rollBody_log_nonempty (config : IndexConfig) (nextIndex : string)
    (st st' : St) (err : error) (log : list Request) :
  rollBody config nextIndex st = (err, st', log) -> log <> [].
Proof. unfold rollBody. apply andThen_call_nonempty. Qed.

Lemma prefixOf_length {A} (l l' : list A) :
  prefixOf l l' -> (List.length l <= List.length l')%nat.
Proof. intros [rest ->]. rewrite length_app. lia. Qed.

Lemma prefixOf_In {A} (l l' : list A) (x : A) :
  prefixOf l l' -> In x l -> In x l'.
Proof. intros [rest ->] Hin. apply in_or_app. now left. Qed.

(** X7.  Every call of [Roll] either stops at its gate, leaving the store
    as it is and issuing nothing, or issues an initial segment of: create
    the new index; one alias batch; the cleanup; the demotion requests.  It
    issues all of them when it returns no error, and at least the creation
    otherwise. *)
Theorem Roll_issues_planned (config : IndexConfig) (t : Time) (st st' : St)
    (err : error) (log : list Request) :
  Roll config t st = (err, st', log) ->
  (passesGate config t st = false /\ st' = st /\ log = [])
  \/ (passesGate config t st = true
      /\ log <> []
      /\ prefixOf log
           (plannedRequests config (NextIndex config t) (OldIndexNames config st))
      /\ (err = None ->
          log = plannedRequests config (NextIndex config t)
                  (OldIndexNames config st))).
Proof.
  intros Hrun. destruct (passesGate config t st) eqn:Hgate.
  - right. rewrite (Roll_through _ _ _ Hgate) in Hrun.
    destruct (rollBody_issues _ _ _ _ _ _ Hrun) as [Hpre Hfull].
    repeat split; try assumption.
    now apply (rollBody_log_nonempty _ _ _ _ _ _ Hrun).
  - left. destruct (Roll_gated _ _ _ Hgate) as [e He].
    rewrite He in Hrun. inversion Hrun; subst. now repeat split.
Qed.

Lemma Roll_log_planned (config : IndexConfig) (t : Time) (st st' : St)
    (err : error) (log : list Request) :
  Roll config t st = (err, st', log) ->
  prefixOf log
    (plannedRequests config (NextIndex config t) (OldIndexNames config st))
  /\ (err = None -> log <> [] ->
      log = plannedRequests config (NextIndex config t) (OldIndexNames config st)).
Proof.
  intros Hrun. destruct (passesGate config t st) eqn:Hgate.
  - rewrite (Roll_through _ _ _ Hgate) in Hrun.
    destruct (rollBody_issues _ _ _ _ _ _ Hrun) as [Hpre Hfull]. split; auto.
  - destruct (Roll_gated _ _ _ Hgate) as [e He].
    rewrite He in Hrun. inversion Hrun; subst.
    split; [now eexists | intros _ Hne; contradiction].
Qed.

Lemma cleanupRequests_all_cleanup (config : IndexConfig) (names : list string) :
  filter isCleanup (cleanupRequests config names) = cleanupRequests config names.
Proof.
  unfold cleanupRequests. destruct names; [reflexivity |].
  destruct (DeleteOldIndexes config); [reflexivity |].
  now destruct (CloseOldIndexes config).
Qed.

Lemma demotionRequests_no_cleanup (config : IndexConfig) (names : list string) :
  filter isCleanup (demotionRequests config names) = [].
Proof.
  unfold demotionRequests. destruct names; [reflexivity |].
  destruct (SettingsOnRoll config); now destruct (OptimizeOnRoll config).
Qed.




(** X9.  Deleting takes precedence over closing.  The cleanup requests of
    a call of [Roll] are an initial segment of (all of, when it returns no
    error after issuing requests): with [deleteOld], one [DeleteIndex] of
    every retired partition, open or not; without it and with [closeOld],
    a [Flush] and then a [CloseIndex] of the retired partitions whose
    status is ["open"]; with neither, or with nothing to clean, none. *)
Theorem Roll_cleanup_precedence (config : IndexConfig) (t : Time) (st st' : St)
    (err : error) (log : list Request) :
  let old := OldIndexNames config st in
  let retired := firstn (retiredCount config (List.length old)) old in
  let opened := filter (fun o => String.eqb (Status o) "open") retired in
  let expected :=
    if DeleteOldIndexes config then
      match retired with
      | [] => []
      | _ :: _ => [DeleteIndex (map Name retired)]
      end
    else if CloseOldIndexes config then
      match opened with
      | [] => []
      | _ :: _ => [Flush (map Name opened); CloseIndex (map Name opened)]
      end
    else [] in
  Roll config t st = (err, st', log) ->
  prefixOf (filter isCleanup log) expected
  /\ (err = None -> log <> [] -> filter isCleanup log = expected).
Proof.
  intros old retired opened expected Hrun.
  destruct (Roll_log_planned _ _ _ _ _ _ Hrun) as [Hpre Hfull].
  assert (Hplan : filter isCleanup
                    (plannedRequests config (NextIndex config t) old)
                  = expected).
  { unfold plannedRequests, planSpec. cbn [app filter isCleanup].
    rewrite filter_app, cleanupRequests_all_cleanup, demotionRequests_no_cleanup,
      app_nil_r.
    fold retired. unfold cleanupRequests, cleanable, expected, opened.
    destruct (DeleteOldIndexes config); cbn [orb].
    - replace (filter (fun _ : Index => true) retired) with retired
        by (symmetry; apply filter_all; reflexivity).
      now destruct retired.
    - destruct (CloseOldIndexes config); cbn [andb].
      + now destruct (filter _ retired).
      + replace (filter (fun _ : Index => false) retired) with (@nil Index)
          by (symmetry; apply filter_none; reflexivity).
        reflexivity. }
  split.
  - rewrite <- Hplan. now apply prefixOf_filter.
  - intros Hnone Hne. now rewrite (Hfull Hnone Hne).
Qed.

(** X10.  With a search fan-out of 1 (or less) every old partition is
    retired, so whatever [optimizeOnRoll] and [settingsOnRoll] say, no call
    of [Roll] puts settings or optimizes. *)
Theorem Roll_fanout_one_never_demotes (config : IndexConfig) (t : Time)
    (st st' : St) (err : error) (log : list Request) :
  IndexesToAliasForSearch config <= 1 ->
  Roll config t st = (err, st', log) ->
  retiredCount config (List.length (OldIndexNames config st))
    = List.length (OldIndexNames config st)
  /\ filter isDemotion log = [].
Proof.
  intros Hfan Hrun.
  assert (Hall : retiredCount config (List.length (OldIndexNames config st))
                 = List.length (OldIndexNames config st))
    by (unfold retiredCount; lia).
  split; [exact Hall |].
  destruct (Roll_log_planned _ _ _ _ _ _ Hrun) as [Hpre _].
  apply (prefixOf_filter isDemotion) in Hpre.
  rewrite plannedRequests_demotion, Hall, skipn_all, demoted_nil in Hpre.
  cbn in Hpre. destruct Hpre as [rest Hrest].
  symmetry in Hrest. now apply app_eq_nil in Hrest as [Hnil _].
Qed.

(** X11.  [OldIndexNames] returns the indices the store lists for
    [<target>_*], each once with its name and status (the size is left 0),
    in ascending order of name. *)
Theorem OldIndexNames_sorted_listing (config : IndexConfig) (st : St) :
  Sorted (fun a b => Less b a = false) (OldIndexNames config st)
  /\ Permutation (OldIndexNames config st)
       (map (fun info => mkIndex (CatName info) (CatStatus info) 0)
          (GetCatIndexInfo st (TargetIndex config ++ "_*")%string)).
Proof.
  split.
  - unfold OldIndexNames, sortByIndexAge.
    induction (map _ (GetCatIndexInfo st _)) as [| x l IH]; [constructor |].
    cbn [fold_right]. now apply insertByAge_sorted.
  - unfold OldIndexNames. apply sortByIndexAge_perm.
Qed.

End RollRequestFacts.

(** ** The family on the model store *)

Section FamilyFacts.
Context `{Libs}.

Lemma stripStar_append (s : string) (c : ascii) :
  stripStar (s ++ String c "*") = Some (s ++ String c "")%string.
Proof.
  induction s as [| a s IH]; [reflexivity |].
  cbn [String.append stripStar]. rewrite IH.
  now destruct (s ++ String c "*")%string eqn:Heq; [destruct s; discriminate |].
Qed.

Lemma prefix_append (s a r : string) :
  String.prefix (s ++ a) (s ++ (a ++ r)) = true.
Proof.
  induction s as [| c s IH].
  - cbn [String.append]. induction a as [| c a IHa]; [now destruct r |].
    cbn [String.append String.prefix]. now destruct (ascii_dec c c).
  - cbn [String.append String.prefix]. now destruct (ascii_dec c c).
Qed.

(** The name of a new partition matches the pattern its family is listed by. *)
Lemma NextIndex_resolves (config : IndexConfig) (t : Time) (ix : EsIndex) :
  ixName ix = NextIndex config t ->
  resolves (TargetIndex config ++ "_*") ix = true.
Proof.
  intros Hname. unfold resolves.
  rewrite (stripStar_append (TargetIndex config) "_"). rewrite Hname.
  unfold NextIndex. apply prefix_append.
Qed.

Lemma family_by_name (config : IndexConfig) (ixs : list EsIndex) :
  map ixName (filter (resolves (TargetIndex config ++ "_*")) ixs)
  = filter (String.prefix (TargetIndex config ++ "_")) (map ixName ixs).
Proof.
  induction ixs as [| ix ixs IH]; [reflexivity |].
  cbn [filter map]. unfold resolves at 1.
  rewrite (stripStar_append (TargetIndex config) "_").
  destruct (String.prefix _ (ixName ix)); cbn [map]; now rewrite IH.
Qed.

Lemma Permutation_filter_compat {A} (f : A -> bool) (l l' : list A) :
  Permutation l l' -> Permutation (filter f l) (filter f l').
Proof.
  induction 1 as [| x l l' _ IH | x y l | l l' l'' _ IH1 _ IH2].
  - constructor.
  - cbn [filter]. destruct (f x); [now constructor | assumption].
  - cbn [filter]. destruct (f x); destruct (f y); try reflexivity. apply perm_swap.
  - now transitivity (filter f l').
Qed.

Lemma filter_comm {A} (f g : A -> bool) (l : list A) :
  filter f (filter g l) = filter g (filter f l).
Proof.
  induction l as [| x l IH]; [reflexivity |].
  cbn [filter]. destruct (f x) eqn:Hf; destruct (g x) eqn:Hg; cbn [filter];
    rewrite ?Hf, ?Hg, IH; reflexivity.
Qed.

Lemma cleanupEffect_name_list (config : IndexConfig) (names : list string)
    (ixs : list EsIndex) :
  map ixName (cleanupEffect config names ixs)
  = filter (fun n => negb (DeleteOldIndexes config && memb n names))
      (map ixName ixs).
Proof.
  unfold cleanupEffect. destruct names as [| n names'].
  - rewrite filter_all; [reflexivity |]. intros x _.
    now rewrite andb_false_r.
  - destruct (DeleteOldIndexes config); cbn [andb].
    + induction ixs as [| ix ixs IH]; [reflexivity |].
      cbn [filter map]. destruct (memb (ixName ix) (n :: names')); cbn [negb map];
        now rewrite IH.
    + rewrite filter_all by reflexivity.
      destruct (CloseOldIndexes config); [| reflexivity].
      rewrite map_map. apply map_ext. intros ix.
      now destruct (memb (ixName ix) (n :: names')).
Qed.

(** X12.  After a successful [Roll] that issued requests, the family the
    next roll will list is the old family, less the partitions this roll
    deleted, plus the new partition. *)
Theorem Roll_family_after (config : IndexConfig) (t : Time) (st st' : EsStore)
    (log : list Request) :
  let old := OldIndexNames config st in
  let retired := firstn (retiredCount config (List.length old)) old in
  Roll config t st = (None, st', log) -> log <> [] ->
  Permutation (map Name (OldIndexNames config st'))
    (filter (fun n => negb (DeleteOldIndexes config && memb n (map Name retired)))
       (map Name old)
     ++ [NextIndex config t]).
Proof.
  intros old retired Hrun Hlog.
  destruct (passesGate config t st) eqn:Hgate;
    [| destruct (Roll_gated _ _ _ Hgate) as [e He]; rewrite He in Hrun;
       inversion Hrun; subst; contradiction].
  rewrite (Roll_through _ _ _ Hgate) in Hrun.
  apply es_rollBody_success in Hrun as [Hnew Hst'].
  unfold planSpec in Hst'. fold old retired in Hst'.
  set (cl := map Name (filter (cleanable config) retired)) in *.
  assert (Hcl : forall n, In n (map Name old) ->
                          DeleteOldIndexes config && memb n cl
                          = DeleteOldIndexes config && memb n (map Name retired)).
  { intros n _. unfold cl, cleanable.
    destruct (DeleteOldIndexes config); [| reflexivity]. cbn [orb andb].
    now rewrite (filter_all (fun _ => true)) by reflexivity. }
  assert (Hnext_old : ~ In (NextIndex config t) (map Name old)).
  { intros Hin. apply (unresolved_not_name _ _ Hnew).
    now apply (OldIndexNames_in_store config st). }
  assert (Hnext_cl : memb (NextIndex config t) cl = false).
  { destruct (memb (NextIndex config t) cl) eqn:Hm; [| reflexivity].
    apply memb_In in Hm. exfalso. apply Hnext_old.
    unfold cl in Hm. apply in_map_iff in Hm as [o [Hname Ho]].
    apply filter_In in Ho as [Ho _]. apply in_map_iff. exists o.
    split; [assumption |].
    rewrite <- (firstn_skipn (retiredCount config (List.length old)) old).
    apply in_or_app. now left. }
  rewrite (OldIndexNames_perm config st'), family_by_name, Hst'.
  rewrite cleanupEffect_name_list, applyAliases_names, map_app.
  cbn [map ixName]. rewrite filter_comm, !filter_app. cbn [filter].
  assert (Hpre : String.prefix (TargetIndex config ++ "_") (NextIndex config t)
                 = true) by (unfold NextIndex; apply prefix_append).
  rewrite Hpre. cbn [filter]. rewrite Hnext_cl, andb_false_r.
  cbn [negb]. apply Permutation_app_tail.
  rewrite <- family_by_name.
  transitivity (filter (fun n => negb (DeleteOldIndexes config && memb n cl))
                  (map Name old)).
  - apply Permutation_filter_compat. symmetry. apply OldIndexNames_perm.
  - rewrite (filter_ext_in _ _ _ (fun n Hn => f_equal negb (Hcl n Hn))).
    reflexivity.
Qed.

Lemma holds_applyAliases_stays_false (acts : list AliasAction) (p a : string) :
  forall ixs,
    (forall act, In act acts -> action act = "add"%string ->
                 index act <> p \/ alias act <> a) ->
    holdsAlias ixs p a = false ->
    holdsAlias (applyAliases acts ixs) p a = false.
Proof.
  induction acts as [| act acts IH]; intros ixs Hacts Hh; [assumption |].
  cbn [applyAliases fold_left]. apply IH; [intros act' Hin; apply Hacts; now right |].
  destruct (String.eqb_spec (action act) "add") as [Hadd | Hadd].
  - rewrite holds_applyAlias_other; [assumption |].
    apply Hacts; [now left | assumption].
  - now apply holds_applyAlias_remove_mono.
Qed.

(** What a roll past its gate leaves of the indices of the model store:
    nothing new when creation is refused; the new index alone when the
    alias batch is; else the new index, the batch and the cleanup. *)
Lemma es_rollBody_cases (config : IndexConfig) (nextIndex : string)
    (st st' : EsStore) (err : error) (log : list Request) :
  rollBody config nextIndex st = (err, st', log) ->
  let ixs1 := esIndices st ++ [mkEsIndex nextIndex "open" 0 []] in
  esIndices st' = esIndices st
  \/ (existsb (resolves nextIndex) (esIndices st) = false
      /\ (esIndices st' = ixs1
          \/ match planSpec config nextIndex (OldIndexNames config st) with
             | (cl, acts, _) =>
                 esIndices st' = cleanupEffect config cl (applyAliases acts ixs1)
             end)).
Proof.
  unfold rollBody.
  pose proof (rollPlan_closed config nextIndex (OldIndexNames config st)) as Hplan.
  cbv zeta in Hplan.
  destruct (planSpec config nextIndex (OldIndexNames config st))
    as [[cl acts] opt].
  inversion Hplan as [[Hcl Hacts Hopt]]. clear Hplan.
  cbv zeta. rewrite Hcl, Hacts, Hopt.
  unfold andThen at 1. unfold call at 1. cbn [Perform EsConn esPerform].
  destruct (existsb (resolves nextIndex) (esIndices st));
    [intros Hrun; inversion Hrun; subst; now left |].
  unfold andThen at 1. unfold call at 1. cbn [Perform EsConn esPerform esIndices].
  destruct (forallb _ acts).
  - unfold andThen. rewrite es_rollCleanup, es_rollOptimize.
    intros Hrun. inversion Hrun; subst. right. split; [reflexivity |]. now right.
  - intros Hrun. inversion Hrun; subst. right. split; [reflexivity |]. now left.
Qed.

Lemma Roll_cases (config : IndexConfig) (t : Time) (st st' : EsStore)
    (err : error) (log : list Request) :
  Roll config t st = (err, st', log) ->
  let ixs1 := esIndices st ++ [mkEsIndex (NextIndex config t) "open" 0 []] in
  esIndices st' = esIndices st
  \/ (existsb (resolves (NextIndex config t)) (esIndices st) = false
      /\ (esIndices st' = ixs1
          \/ match planSpec config (NextIndex config t) (OldIndexNames config st) with
             | (cl, acts, _) =>
                 esIndices st' = cleanupEffect config cl (applyAliases acts ixs1)
             end)).
Proof.
  intros Hrun. destruct (passesGate config t st) eqn:Hgate.
  - rewrite (Roll_through _ _ _ Hgate) in Hrun.
    now apply (es_rollBody_cases _ _ _ _ _ _ Hrun).
  - destruct (Roll_gated _ _ _ Hgate) as [e He]. rewrite He in Hrun.
    inversion Hrun; subst. now left.
Qed.

(** X13.  [Roll] gives no alias to an index that existed before the call,
    whatever it returns: aliases are added to the new index only, so a
    partition that has lost the search alias never gets it back from a
    later roll. *)
Theorem Roll_never_adds_alias (config : IndexConfig) (t : Time)
    (st st' : EsStore) (err : error) (log : list Request) (p a : string) :
  Roll config t st = (err, st', log) ->
  In p (map ixName (esIndices st)) ->
  holdsAlias (esIndices st) p a = false ->
  holdsAlias (esIndices st') p a = false.
Proof.
  intros Hrun Hp Hholds.
  destruct (Roll_cases _ _ _ _ _ _ Hrun) as [-> | [Hnew [-> | Hst']]];
    [assumption | now rewrite holdsAlias_new |].
  pose proof (planSpec_actions config (NextIndex config t)
                (OldIndexNames config st)) as Hacts.
  cbv zeta in Hacts.
  destruct (planSpec config (NextIndex config t) (OldIndexNames config st))
    as [[cl acts] opt].
  cbn [fst snd] in Hacts. rewrite Hst'.
  apply holds_cleanup_false. apply holds_applyAliases_stays_false;
    [| now rewrite holdsAlias_new].
  intros act Hact Hadd. left.
  assert (Hne : NextIndex config t <> p).
  { intros Heq. subst p. now apply (unresolved_not_name _ _ Hnew). }
  destruct (Hacts act Hact) as [-> | [-> | [[o [Ho [-> | ->]]] | [o [Ho ->]]]]];
    cbn [index action rmWrite rmSearch] in *; try discriminate; assumption.
Qed.

Lemma applyAliases_outside (acts : list AliasAction) (ix : EsIndex) :
  forall ixs,
    (forall act, In act acts -> index act <> ixName ix) ->
    In ix ixs -> In ix (applyAliases acts ixs).
Proof.
  induction acts as [| act acts IH]; intros ixs Hacts Hin; [assumption |].
  cbn [applyAliases fold_left]. apply IH; [intros act' Hact; apply Hacts; now right |].
  assert (Hne : String.eqb (ixName ix) (index act) = false).
  { apply String.eqb_neq. intros Heq. apply (Hacts act); [now left | now symmetry]. }
  unfold applyAlias, onIndex.
  destruct (String.eqb (action act) "add");
    [| destruct (String.eqb (action act) "remove"); [| assumption]];
    apply in_map_iff; exists ix; now rewrite Hne.
Qed.

(** X14.  [Roll] leaves every index outside the family exactly as it was
    (name, status, size and aliases), whatever it returns. *)
Theorem Roll_frame_outside_family (config : IndexConfig) (t : Time)
    (st st' : EsStore) (err : error) (log : list Request) (ix : EsIndex) :
  Roll config t st = (err, st', log) ->
  In ix (esIndices st) ->
  ~ In (ixName ix) (map Name (OldIndexNames config st)) ->
  In ix (esIndices st').
Proof.
  intros Hrun Hin Hout.
  destruct (Roll_cases _ _ _ _ _ _ Hrun) as [-> | [Hnew [-> | Hst']]];
    [assumption | apply in_or_app; now left |].
  pose proof (planSpec_actions config (NextIndex config t)
                (OldIndexNames config st)) as Hacts.
  cbv zeta in Hacts.
  assert (Hcl : forall n, In n (fst (fst (planSpec config (NextIndex config t)
                                           (OldIndexNames config st)))) ->
                          In n (map Name (OldIndexNames config st))).
  { unfold planSpec. cbn [fst]. intros n Hn.
    apply in_map_iff in Hn as [o [Hname Ho]]. apply filter_In in Ho as [Ho _].
    apply in_map_iff. exists o. split; [assumption |].
    rewrite <- (firstn_skipn (retiredCount config
                                (List.length (OldIndexNames config st)))).
    apply in_or_app. now left. }
  destruct (planSpec config (NextIndex config t) (OldIndexNames config st))
    as [[cl acts] opt].
  cbn [fst snd] in Hacts, Hcl. rewrite Hst'.
  assert (Hne : NextIndex config t <> ixName ix).
  { intros Heq. apply (unresolved_not_name _ _ Hnew). rewrite Heq.
    now apply in_map. }
  assert (Hix : In ix (applyAliases acts
                         (esIndices st
                          ++ [mkEsIndex (NextIndex config t) "open" 0 []]))).
  { apply applyAliases_outside; [| apply in_or_app; now left].
    intros act Hact.
    destruct (Hacts act Hact) as [-> | [-> | [[o [Ho [-> | ->]]] | [o [Ho ->]]]]];
      cbn [index rmWrite rmSearch]; try assumption;
      intros Heq; apply Hout; rewrite <- Heq; apply in_map;
      rewrite <- (firstn_skipn (retiredCount config
                                  (List.length (OldIndexNames config st))));
      apply in_or_app; auto. }
  assert (Hnot : memb (ixName ix) cl = false).
  { destruct (memb (ixName ix) cl) eqn:Hm; [| reflexivity].
    apply memb_In in Hm. exfalso. apply Hout. now apply Hcl. }
  unfold cleanupEffect. destruct cl as [| n cl']; [assumption |].
  destruct (DeleteOldIndexes config).
  - apply filter_In. split; [assumption | now rewrite Hnot].
  - destruct (CloseOldIndexes config); [| assumption].
    apply in_map_iff. exists ix. now rewrite Hnot.
Qed.

End FamilyFacts.

(** ** The order of partition names *)

Section NameOrder.

Lemma zrange_In (n : nat) :
  forall start x, start <= x < start + Z.of_nat n -> In x (zrange start n).
Proof.
  induction n as [| n IH]; intros start x Hx; [lia |].
  cbn [zrange]. destruct (Z.eq_dec start x) as [-> | Hne]; [now left |].
  right. apply IH. lia.
Qed.

Lemma appendInt_two (x : Z) : 0 <= x < 100 -> appendInt x 2 = twoDigits x.
Proof.
  intros Hx.
  assert (Hall : forallb (fun n => String.eqb (appendInt n 2) (twoDigits n))
                   (zrange 0 100) = true) by (vm_compute; reflexivity).
  rewrite forallb_forall in Hall.
  apply String.eqb_eq, Hall, zrange_In. lia.
Qed.

Lemma appendInt_four (y : Z) :
  0 <= y < 10000 ->
  appendInt y 4 = (twoDigits (y / 100) ++ twoDigits (y mod 100))%string.
Proof.
  intros Hy.
  assert (Hall : forallb
                   (fun n => String.eqb (appendInt n 4)
                               (twoDigits (n / 100) ++ twoDigits (n mod 100))%string)
                   (zrange 0 (100 * 100)) = true) by (vm_compute; reflexivity).
  rewrite forallb_forall in Hall.
  apply String.eqb_eq, Hall, zrange_In. lia.
Qed.

Lemma comparison_eqb_eq (c c' : comparison) : comparison_eqb c c' = true -> c = c'.
Proof. destruct c, c'; (reflexivity || discriminate). Qed.

Lemma digit_compare (a b : Z) :
  0 <= a < 10 -> 0 <= b < 10 ->
  Ascii.compare (digit a) (digit b) = (a ?= b).
Proof.
  intros Ha Hb.
  assert (Hall : forallb
                   (fun n =>
                      forallb
                        (fun m => comparison_eqb
                                    (Ascii.compare (digit n) (digit m)) (n ?= m))
                        (zrange 0 10))
                   (zrange 0 10) = true) by (vm_compute; reflexivity).
  rewrite forallb_forall in Hall.
  specialize (Hall a (zrange_In 10 0 a ltac:(lia))).
  rewrite forallb_forall in Hall.
  apply comparison_eqb_eq, Hall, zrange_In. lia.
Qed.

Lemma compare_digits (base x y : Z) :
  0 < base -> 0 <= x -> 0 <= y ->
  (x ?= y)
  = match x / base ?= y / base with
    | Eq => x mod base ?= y mod base
    | c => c
    end.
Proof.
  intros Hb Hx Hy.
  pose proof (Z.div_mod x base ltac:(lia)) as Hdx.
  pose proof (Z.div_mod y base ltac:(lia)) as Hdy.
  pose proof (Z.mod_pos_bound x base ltac:(lia)) as Hbx.
  pose proof (Z.mod_pos_bound y base ltac:(lia)) as Hby.
  destruct (Z.compare_spec (x / base) (y / base)) as [Hq | Hq | Hq].
  - rewrite Hq in Hdx.
    destruct (Z.compare_spec (x mod base) (y mod base)) as [Hr | Hr | Hr].
    + apply Z.compare_eq_iff. lia.
    + apply Z.compare_lt_iff. lia.
    + apply Z.compare_gt_iff. lia.
  - apply Z.compare_lt_iff. nia.
  - apply Z.compare_gt_iff. nia.
Qed.

Lemma digits_compare (x y : Z) :
  0 <= x < 100 -> 0 <= y < 100 ->
  match Ascii.compare (digit (x / 10)) (digit (y / 10)) with
  | Eq => Ascii.compare (digit (x mod 10)) (digit (y mod 10))
  | c => c
  end = (x ?= y).
Proof.
  intros Hx Hy.
  pose proof (Z.mod_pos_bound x 10 ltac:(lia)).
  pose proof (Z.mod_pos_bound y 10 ltac:(lia)).
  assert (0 <= x / 10 < 10)
    by (split; [apply Z.div_pos; lia | apply Z.div_lt_upper_bound; lia]).
  assert (0 <= y / 10 < 10)
    by (split; [apply Z.div_pos; lia | apply Z.div_lt_upper_bound; lia]).
  rewrite !digit_compare by assumption.
  symmetry. apply compare_digits; lia.
Qed.

(** Two fields of two digits, each followed by more text. *)
Lemma twoDigits_compare (x y : Z) (r1 r2 : string) :
  0 <= x < 100 -> 0 <= y < 100 ->
  String.compare (twoDigits x ++ r1) (twoDigits y ++ r2)
  = match x ?= y with Eq => String.compare r1 r2 | c => c end.
Proof.
  intros Hx Hy. pose proof (digits_compare x y Hx Hy) as Hd.
  unfold twoDigits. cbn [String.append String.compare].
  destruct (Ascii.compare (digit (x / 10)) (digit (y / 10)));
    [destruct (Ascii.compare (digit (x mod 10)) (digit (y mod 10))) | |];
    rewrite <- Hd; reflexivity.
Qed.

Lemma string_append_assoc (a b c : string) :
  ((a ++ b) ++ c = a ++ (b ++ c))%string.
Proof.
  induction a as [| x a IH]; [reflexivity |].
  cbn [String.append]. now rewrite IH.
Qed.

Lemma field2_compare (x y : Z) (r1 r2 : string) :
  0 <= x < 100 -> 0 <= y < 100 ->
  String.compare (appendInt x 2 ++ r1) (appendInt y 2 ++ r2)
  = match x ?= y with Eq => String.compare r1 r2 | c => c end.
Proof.
  intros Hx Hy. rewrite !appendInt_two by assumption.
  now apply twoDigits_compare.
Qed.

Lemma field4_compare (x y : Z) (r1 r2 : string) :
  0 <= x < 10000 -> 0 <= y < 10000 ->
  String.compare (appendInt x 4 ++ r1) (appendInt y 4 ++ r2)
  = match x ?= y with Eq => String.compare r1 r2 | c => c end.
Proof.
  intros Hx Hy. rewrite !appendInt_four by assumption.
  rewrite !string_append_assoc.
  pose proof (Z.mod_pos_bound x 100 ltac:(lia)).
  pose proof (Z.mod_pos_bound y 100 ltac:(lia)).
  assert (0 <= x / 100 < 100)
    by (split; [apply Z.div_pos; lia | apply Z.div_lt_upper_bound; lia]).
  assert (0 <= y / 100 < 100)
    by (split; [apply Z.div_pos; lia | apply Z.div_lt_upper_bound; lia]).
  rewrite twoDigits_compare by assumption.
  rewrite twoDigits_compare by assumption.
  rewrite (compare_digits 100 x y) by lia.
  now destruct (x / 100 ?= y / 100).
Qed.

Lemma ascii_compare_refl (c : ascii) : Ascii.compare c c = Eq.
Proof. unfold Ascii.compare. apply N.compare_refl. Qed.

Lemma compare_common_prefix (p a b : string) :
  String.compare (p ++ a) (p ++ b) = String.compare a b.
Proof.
  induction p as [| c p IH]; [reflexivity |].
  cbn [String.append String.compare]. now rewrite ascii_compare_refl.
Qed.

Lemma string_append_nil_r (s : string) : (s ++ "")%string = s.
Proof.
  induction s as [| c s IH]; [reflexivity |].
  cbn [String.append]. now rewrite IH.
Qed.

Lemma field2_compare_last (x y : Z) :
  0 <= x < 100 -> 0 <= y < 100 ->
  String.compare (appendInt x 2) (appendInt y 2)
  = match x ?= y with Eq => Eq | c => c end.
Proof.
  intros Hx Hy.
  rewrite <- (string_append_nil_r (appendInt x 2)).
  rewrite <- (string_append_nil_r (appendInt y 2)).
  now rewrite field2_compare.
Qed.

Lemma field4_compare_last (x y : Z) :
  0 <= x < 10000 -> 0 <= y < 10000 ->
  String.compare (appendInt x 4) (appendInt y 4)
  = match x ?= y with Eq => Eq | c => c end.
Proof.
  intros Hx Hy.
  rewrite <- (string_append_nil_r (appendInt x 4)).
  rewrite <- (string_append_nil_r (appendInt y 4)).
  now rewrite field4_compare.
Qed.

Lemma inRange_bounds (t : Time) :
  inRange t = true ->
  0 <= Year t < 10000 /\ 0 <= Month t < 100 /\ 0 <= Day t < 100
  /\ 0 <= Hour t < 100 /\ 0 <= Minute t < 100 /\ 0 <= Second t < 100.
Proof.
  unfold inRange. rewrite !andb_true_iff, !Z.leb_le, !Z.ltb_lt. lia.
Qed.

(** X15.  Names order as instants do.  For instants with fields in range,
    Go's byte-wise comparison of the names [NextIndex] gives them is the
    lexicographic comparison of the fields the unit's suffix shows (year,
    month, day, hour, minute, second, down to the unit); so [ByIndexAge]
    sorts the partitions of a policy by time, and two instants get the same
    name exactly when they agree on those fields. *)
Theorem NextIndex_order (config : IndexConfig) (t1 t2 : Time) :
  inRange t1 = true -> inRange t2 = true ->
  String.compare (NextIndex config t1) (NextIndex config t2)
    = lexCompare (stamp config t1) (stamp config t2)
  /\ (NextIndex config t1 = NextIndex config t2
      <-> stamp config t1 = stamp config t2).
Proof.
  intros H1 H2.
  apply inRange_bounds in H1 as [Hy1 [Hm1 [Hd1 [Hh1 [Hi1 Hs1]]]]].
  apply inRange_bounds in H2 as [Hy2 [Hm2 [Hd2 [Hh2 [Hi2 Hs2]]]]].
  assert (Hcmp : String.compare (NextIndex config t1) (NextIndex config t2)
                 = lexCompare (stamp config t1) (stamp config t2)).
  { unfold NextIndex, IndexSuffixFormat, stamp.
    rewrite compare_common_prefix.
    cbn [String.append String.compare]. rewrite ascii_compare_refl.
    repeat match goal with
           | |- context [if String.eqb ?a ?b then _ else _] =>
               destruct (String.eqb a b)
           end;
      unfold Format;
      cbn [split_on map formatChunk String.concat String.eqb Ascii.eqb Bool.eqb
             Ascii.eqb lexCompare];
      repeat (first [ rewrite field4_compare by assumption
                    | rewrite field2_compare by assumption
                    | rewrite field4_compare_last by assumption
                    | rewrite field2_compare_last by assumption
                    | rewrite ascii_compare_refl
                    | progress cbn [String.append String.compare] ]);
      reflexivity. }
  split; [exact Hcmp |].
  split.
  - intros Heq. rewrite Heq in Hcmp.
    assert (Hrefl : String.compare (NextIndex config t2) (NextIndex config t2) = Eq).
    { rewrite <- (string_append_nil_r (NextIndex config t2)).
      now rewrite compare_common_prefix. }
    rewrite Hrefl in Hcmp. symmetry in Hcmp. clear - Hcmp.
    revert Hcmp. generalize (stamp config t2). generalize (stamp config t1).
    induction l as [| x l IH]; intros [| y l'] Hc; try discriminate;
      [reflexivity |].
    cbn [lexCompare] in Hc. destruct (Z.compare_spec x y); try discriminate.
    subst. f_equal. now apply IH.
  - intros Heq. apply String.compare_eq_iff. rewrite Hcmp, Heq.
    clear. induction (stamp config t2) as [| x l IH]; [reflexivity |].
    cbn [lexCompare]. now rewrite Z.compare_refl.
Qed.

End NameOrder.

(** ** The further properties on the sample policies and stores *)

Section FurtherSampleRuns.
#[local] Existing Instance SampleLibs.

(** X3 on a document without [rollUnit] next to the [snowball] document:
    the one policy that is loaded is complete. *)
Lemma GetConfigs_policies_complete_witness :
  let config :=
    mkIndexConfig "snowball" None None "snowball" 3 "minutes" "" 4 "search"
      false true true 2 in
  Id config <> ""%string
  /\ TargetIndex config <> ""%string
  /\ SearchSuffix config <> ""%string
  /\ In (RollUnit config) unitNames
  /\ 0 <= OptimizeMaxSegments config
  /\ SetDefaults config = config.
Proof.
  exact (GetConfigs_policies_complete (storeDocs [docNoUnit; docSnowball])
           _ _ _ eq_refl (or_introl eq_refl)).
Defined.

(** X5: the [snowball] policy is due at 13:03:00, a full minute. *)
Lemma ShouldRoll_implies_AddWork_witness : AddWork threePastOne = true.
Proof.
  exact (ShouldRoll_implies_AddWork policySnowball threePastOne eq_refl).
Defined.

(** X7 on the README's third roll. *)
Lemma Roll_issues_planned_witness :
  snd (Roll (policyYears 2) (newYear 2018) storeFanout2)
  = plannedRequests (policyYears 2) "logs_2018"
      (OldIndexNames (policyYears 2) storeFanout2).
Proof.
  destruct (Roll_issues_planned (policyYears 2) (newYear 2018) storeFanout2
              _ _ _
              (triple_eta (Roll (policyYears 2) (newYear 2018) storeFanout2)))
    as [[Hgate _] | [_ [_ [_ Hlog]]]].
  - discriminate Hgate.
  - exact (Hlog eq_refl).
Defined.


(** X9 on a policy with both [deleteOldIndexes] and [closeOldIndexes]: the
    partition of 2016 is deleted, and nothing is flushed or closed. *)
Lemma Roll_cleanup_precedence_witness :
  filter isCleanup
    (snd (Roll policyYearsDeleting (newYear 2018) storeFanout2))
  = [DeleteIndex ["logs_2016"%string]].
Proof.
  exact (proj2 (Roll_cleanup_precedence policyYearsDeleting (newYear 2018)
                  storeFanout2 _ _ _
                  (triple_eta (Roll policyYearsDeleting (newYear 2018)
                                 storeFanout2)))
           eq_refl ltac:(discriminate)).
Defined.

(** X10 on the roll of 2018 with fan-out 1. *)
Lemma Roll_fanout_one_never_demotes_witness :
  retiredCount (policyYears 1)
    (List.length (OldIndexNames (policyYears 1) storeFanout1))
  = List.length (OldIndexNames (policyYears 1) storeFanout1)
  /\ filter isDemotion
       (snd (Roll (policyYears 1) (newYear 2018) storeFanout1)) = [].
Proof.
  exact (Roll_fanout_one_never_demotes (policyYears 1) (newYear 2018)
           storeFanout1 _ _ _ (Z.le_refl 1)
           (triple_eta (Roll (policyYears 1) (newYear 2018) storeFanout1))).
Defined.

(** X12 on the deleting policy: after the roll of 2018 the family is the
    partitions of 2017 and 2018. *)
Lemma Roll_family_after_witness :
  Permutation
    (map Name
       (OldIndexNames policyYearsDeleting
          (snd (fst (Roll policyYearsDeleting (newYear 2018) storeFanout2)))))
    ["logs_2017"%string; "logs_2018"%string].
Proof.
  exact (Roll_family_after policyYearsDeleting (newYear 2018) storeFanout2
           (snd (fst (Roll policyYearsDeleting (newYear 2018) storeFanout2)))
           (snd (Roll policyYearsDeleting (newYear 2018) storeFanout2))
           eq_refl ltac:(discriminate)).
Defined.

(** X13: the roll of 2018 does not give the search alias of [logs] to the
    index of another family, and not back to the partition of 2016. *)
Lemma Roll_never_adds_alias_witness :
  holdsAlias
    (esIndices (snd (fst (Roll (policyYears 2) (newYear 2018) storeMixed))))
    "metrics_2017" "logs_search" = false.
Proof.
  exact (Roll_never_adds_alias (policyYears 2) (newYear 2018) storeMixed
           _ _ _ "metrics_2017" "logs_search"
           (triple_eta (Roll (policyYears 2) (newYear 2018) storeMixed))
           (or_intror (or_intror (or_introl eq_refl))) eq_refl).
Defined.

(** X14: the roll of 2018 of the deleting policy leaves the index of
    another family as it was. *)
Lemma Roll_frame_outside_family_witness :
  In metrics2017
    (esIndices (snd (fst (Roll policyYearsDeleting (newYear 2018) storeMixed)))).
Proof.
  refine (Roll_frame_outside_family policyYearsDeleting (newYear 2018)
            storeMixed _ _ _ metrics2017
            (triple_eta (Roll policyYearsDeleting (newYear 2018) storeMixed))
            (or_intror (or_intror (or_introl eq_refl))) _).
  cbn. intuition discriminate.
Defined.

(** X15 on two ticks of the [snowball] policy, three minutes apart. *)
Lemma NextIndex_order_witness :
  String.compare (NextIndex policySnowball threePastOne)
    (NextIndex policySnowball sixPastOne) = Lt.
Proof.
  exact (proj1 (NextIndex_order policySnowball threePastOne sixPastOne
                  eq_refl eq_refl)).
Defined.

End FurtherSampleRuns.
